(** * simple-commerce: order aggregation, access control, rate limiting

    A shallow embedding of [main.go] of hanifmasy/simple-commerce.

    Conventions of the model:
    - Go [int] values are [Z]; [time.Time] values are [Z] nanoseconds
      since Go's zero time (January 1, year 1, UTC), so the zero
      [time.Time] is [0]; [time.Duration] is [Z] nanoseconds.
    - A Go [float64] is the type [float64] below: a finite value (the rational it
      stands for), NaN or an infinity; conversions to [float64] round to
      nearest, ties to even ([round_f64]). The token arithmetic of the
      rate limiter is carried out on exact rationals.
    - SQL NULL in a nullable column is [None].
    - A Go map iterated with [range] is a [gmap]; its values are emitted in
      [map_to_list] order, one of the orders Go's randomised iteration may
      produce; every property proved below is independent of that order.
    - The database answers every query its schema accepts and delivers all
      of its rows; a failure of the server or of the connection is not
      part of the model. The properties of the reads below either only
      constrain what a successful read returns, or depend on this. *)

From Stdlib Require Import QArith Qround Qabs Ascii.
From stdpp Require Import base gmap strings list fin_maps.

Open Scope Z_scope.
Open Scope string_scope.

(** ** Results of fallible Go calls: [(T, error)] *)

Inductive result (A : Type) : Type :=
| Ok : A -> result A
| Err : string -> result A.
Arguments Ok {A} _.
Arguments Err {A} _.

(** ** [float64] and [time.Duration]

    [round_f64 x] is the binary64 value nearest to [x], ties to even: 53
    significant bits, and multiples of [2^-1074] below [2^-1022]
    (subnormals). The result is not bounded: a conversion that rounds to
    [2^1024] or beyond overflows, which its caller checks. *)
Definition Qpow2 (e : Z) : Q :=
  if Z.leb 0 e then inject_Z (2 ^ e) else 1 # Z.to_pos (2 ^ (- e)).

(** [floor(log2 x)] for [x > 0]. *)
Definition Qlog2_floor (x : Q) : Z :=
  let k := Z.log2 (Qnum x) - Z.log2 (Zpos (Qden x)) in
  if Qle_bool (Qpow2 k) x then k else k - 1.

Definition round_half_even (x : Q) : Z :=
  let f := Qfloor x in
  match Qcompare (x - inject_Z f) (1 # 2) with
  | Lt => f
  | Gt => f + 1
  | Eq => if Z.even f then f else f + 1
  end.

Definition round_f64_pos (x : Q) : Q :=
  let e := Z.max (Qlog2_floor x - 52) (-1074) in
  (inject_Z (round_half_even (x / Qpow2 e)) * Qpow2 e)%Q.

Definition round_f64 (x : Q) : Q :=
  match Qnum x with
  | Z0 => 0%Q
  | Zpos _ => round_f64_pos x
  | Zneg _ => (- round_f64_pos (- x))%Q
  end.

(** A Go [float64]. *)
Inductive float64 :=
| F64 : Q -> float64
| F64_NaN : float64
| F64_Inf : bool -> float64.   (** [F64_Inf true] is [-Inf] *)

Definition Second : Z := 1000000000.

(** [d.Seconds()]: [float64(d / Second) + float64(d % Second) / 1e9], with
    Go's truncated [/] and [%] on [int64] and a rounding at each [float64]
    conversion and operation. *)
Definition Duration_Seconds (d : Z) : Q :=
  round_f64 (round_f64 (inject_Z (Z.quot d Second)) +
             round_f64 (round_f64 (inject_Z (Z.rem d Second)) / inject_Z Second)).

(** [int(f)] for a finite [f] in the range of [int]: truncation toward
    zero. *)
Definition float64_to_int (x : Q) : Z := Z.quot (Qnum x) (Zpos (Qden x)).

(** ** The Go structs *)

(** [type Product struct]. The struct declares ID, Name, Price,
    Description and ImageURL; [getOrderDetails] scans into
    [product.Quantity] and [GenerateCSVReport] reads it, so the field is
    carried too (zero unless [getOrderDetails] fills it). *)
Record Product := mkProduct {
  P_ID : Z;
  P_Name : string;
  P_Price : float64;
  P_Description : string;
  P_ImageURL : string;
  P_Quantity : Z
}.

(** [type OrderWithProducts struct] *)
Record OrderWithProducts := mkOrderWithProducts {
  ID : Z;
  CustomerID : Z;
  Date : Z;
  Status : string;
  Products : list Product
}.

Definition set_Products (o : OrderWithProducts) (ps : list Product)
  : OrderWithProducts :=
  mkOrderWithProducts (ID o) (CustomerID o) (Date o) (Status o) ps.

(** ** The relational store, with the tables of [initDB] *)

(** A value of a PostgreSQL [DECIMAL] ([numeric]) column: a finite
    decimal, ['NaN'], or ['Infinity'] / ['-Infinity'] ([NumInf true]). *)
Inductive Numeric :=
| NumFinite : Q -> Numeric
| NumNaN : Numeric
| NumInf : bool -> Numeric.

(** [rows.Scan] of a [numeric] into a [float64]: [strconv.ParseFloat] of
    the value's text, which accepts ["NaN"] and ["Infinity"] and fails
    with [ErrRange] when the value rounds beyond the [float64] range. *)
Definition ParseFloat (v : Numeric) : result float64 :=
  match v with
  | NumFinite q =>
      let f := round_f64 q in
      if Qle_bool (Qpow2 1024) (Qabs f) then Err "strconv.ParseFloat: value out of range"
      else Ok (F64 f)
  | NumNaN => Ok F64_NaN
  | NumInf neg => Ok (F64_Inf neg)
  end.

Definition price_scan_ok (v : Numeric) : bool :=
  match ParseFloat v with Ok _ => true | Err _ => false end.

(** The [float64] a successful scan stores. *)
Definition scan_price (v : Numeric) : float64 :=
  match ParseFloat v with Ok f => f | Err _ => F64 0 end.

(** A row of [products]: [price DECIMAL NOT NULL]; [description] and
    [image_url] are nullable. *)
Record ProductRow := mkProductRow {
  p_id : Z;
  p_name : string;
  p_price : Numeric;
  p_description : option string;
  p_image_url : option string
}.

Record CustomerRow := mkCustomerRow {
  c_id : Z;
  c_name : string;
  c_email : string;
  c_password : string
}.

(** A row of [orders]. [o_customer_email] is the value of a
    [customer_email] column, only meaningful when the table has one
    (see [orders_cols]). *)
Record OrderRow := mkOrderRow {
  o_id : Z;
  o_customer_id : Z;
  o_date : Z;
  o_status : string;
  o_customer_email : option string
}.

(** A row of [order_products]. [op_quantity] is only meaningful when the
    table has a [quantity] column (see [order_products_cols]). *)
Record OrderProductRow := mkOrderProductRow {
  op_order_id : Z;
  op_product_id : Z;
  op_quantity : Z
}.

(** The columns the tables actually have. [CREATE TABLE IF NOT EXISTS]
    keeps a pre-existing table as it is, so the columns are part of the
    store. *)
Record Schema := mkSchema {
  orders_cols : list string;
  order_products_cols : list string
}.

(** The columns created by [initDB]. *)
Definition initDB_schema : Schema :=
  mkSchema ["id"; "customer_id"; "date"; "status"]
           ["order_id"; "product_id"].

Record Store := mkStore {
  schema : Schema;
  customers : list CustomerRow;
  products : list ProductRow;
  orders : list OrderRow;
  order_products : list OrderProductRow;
  orders_seq : Z   (** last value of the [orders.id] SERIAL sequence *)
}.

Definition has_col (c : string) (cols : list string) : bool :=
  bool_decide (c ∈ cols).

(** [FROM orders o JOIN order_products op ON o.id = op.order_id
     JOIN products p ON op.product_id = p.id]: one row per matching
    triple. Without [ORDER BY], PostgreSQL returns these rows in an order
    of its choosing, possibly a different one for each query; [join3]
    lists them in one fixed order, and the properties below that compare
    or count rows do not depend on it (C1 holds for any row list). *)
Definition join3 (s : Store) : list (OrderRow * OrderProductRow * ProductRow) :=
  o ← orders s;
  op ← order_products s;
  if bool_decide (o_id o = op_order_id op) then
    p ← products s;
    if bool_decide (op_product_id op = p_id p) then [(o, op, p)] else []
  else [].

(** ** The grouping loop shared by the two list reads

    [for rows.Next() { Scan; if order, ok := orders[orderID]; ok { append }
    else { create } }], then [for _, order := range orders { append }].
    A row is described by: whether [rows.Scan] succeeds on it, its order
    id, the record the [else] branch creates (with no products yet) and
    the product entry either branch adds. *)
Section Group.
Context {R : Type}.
Variable row_scan_ok : R -> bool.
Variable row_orderID : R -> Z.
Variable row_order : R -> OrderWithProducts.
Variable row_product : R -> Product.

Definition group_step (m : gmap Z OrderWithProducts) (r : R)
  : gmap Z OrderWithProducts :=
  match m !! row_orderID r with
  | Some order =>
      <[row_orderID r := set_Products order (Products order ++ [row_product r])]> m
  | None =>
      <[row_orderID r := set_Products (row_order r) [row_product r]]> m
  end.

Fixpoint group_loop (m : gmap Z OrderWithProducts) (rows : list R)
  : result (gmap Z OrderWithProducts) :=
  match rows with
  | [] => Ok m
  | r :: rs =>
      if row_scan_ok r then group_loop (group_step m r) rs
      else Err "sql: Scan error"
  end.

Definition group_rows (rows : list R) : result (list OrderWithProducts) :=
  match group_loop ∅ rows with
  | Ok m => Ok (snd <$> map_to_list m)
  | Err e => Err e
  end.

(** What the map holds for [k] after the loop started from an empty map:
    nothing if no row has id [k]; otherwise the record created from the
    first such row, with the product entries of all such rows. *)
Definition group_spec (rows : list R) (k : Z) : option OrderWithProducts :=
  match filter (fun r => row_orderID r = k) rows with
  | [] => None
  | r :: _ => Some (set_Products (row_order r) (row_product <$> filter (fun r => row_orderID r = k) rows))
  end.

(** The record emitted for each order id: one per distinct id of the
    rows, created from the first row with that id and holding the
    product entries of exactly the rows with that id, in row order. *)
Definition group_correct (rows : list R) (l : list OrderWithProducts) : Prop :=
  NoDup (ID <$> l) /\
  (forall k, k ∈ ID <$> l <-> k ∈ row_orderID <$> rows) /\
  (forall o, o ∈ l -> exists r rs,
      filter (fun r => row_orderID r = ID o) rows = r :: rs /\
      o = set_Products (row_order r) (row_product <$> r :: rs)).

End Group.

(** ** [getCustomerOrdersWithProducts]

    [SELECT o.id, o.date, o.status, p.id, p.name, p.price, p.description,
     p.image_url FROM <join> WHERE o.customer_id = $1]. *)
Record CustomerOrderRow := mkCustomerOrderRow {
  cr_orderID : Z;
  cr_orderDate : Z;
  cr_orderStatus : string;
  cr_productID : Z;
  cr_productName : string;
  cr_productPrice : Numeric;
  cr_productDescription : option string;
  cr_imageURL : option string
}.

Definition customer_orders_query (s : Store) (customerID : Z)
  : list CustomerOrderRow :=
  '(o, op, p) ← join3 s;
  if bool_decide (o_customer_id o = customerID) then
    [mkCustomerOrderRow (o_id o) (o_date o) (o_status o)
       (p_id p) (p_name p) (p_price p) (p_description p) (p_image_url p)]
  else [].

(** [rows.Scan] fails on a NULL scanned into a Go [string] and on a
    price beyond the [float64] range. *)
Definition cr_scan_ok (r : CustomerOrderRow) : bool :=
  price_scan_ok (cr_productPrice r) &&
  bool_decide (is_Some (cr_productDescription r)) &&
  bool_decide (is_Some (cr_imageURL r)).

(** The product entry built from the scanned variables. *)
Definition cr_product (r : CustomerOrderRow) : Product :=
  mkProduct (cr_productID r) (cr_productName r) (scan_price (cr_productPrice r))
    (default "" (cr_productDescription r)) (default "" (cr_imageURL r)) 0.

(** [&OrderWithProducts{ID: orderID, Date: orderDate, Status: orderStatus,
    ...}]: the literal does not set [CustomerID], which keeps Go's zero
    value. *)
Definition cr_order (r : CustomerOrderRow) : OrderWithProducts :=
  mkOrderWithProducts (cr_orderID r) 0 (cr_orderDate r) (cr_orderStatus r) [].

Definition group_customer_rows : list CustomerOrderRow -> result (list OrderWithProducts) :=
  group_rows cr_scan_ok cr_orderID cr_order cr_product.

Definition getCustomerOrdersWithProducts (s : Store) (customerID : Z)
  : result (list OrderWithProducts) :=
  group_customer_rows (customer_orders_query s customerID).

(** ** [getAllOrdersWithProducts]

    [SELECT o.id, o.customer_id, o.date, o.status, p.id, p.name, p.price,
     p.description, p.image_url FROM <join>]. *)
Record AllOrderRow := mkAllOrderRow {
  ar_orderID : Z;
  ar_customerID : Z;
  ar_orderDate : Z;
  ar_orderStatus : string;
  ar_productID : Z;
  ar_productName : string;
  ar_productPrice : Numeric;
  ar_productDescription : option string;
  ar_imageURL : option string
}.

Definition all_orders_query (s : Store) : list AllOrderRow :=
  '(o, op, p) ← join3 s;
  [mkAllOrderRow (o_id o) (o_customer_id o) (o_date o) (o_status o)
     (p_id p) (p_name p) (p_price p) (p_description p) (p_image_url p)].

Definition ar_scan_ok (r : AllOrderRow) : bool :=
  price_scan_ok (ar_productPrice r) &&
  bool_decide (is_Some (ar_productDescription r)) &&
  bool_decide (is_Some (ar_imageURL r)).

Definition ar_product (r : AllOrderRow) : Product :=
  mkProduct (ar_productID r) (ar_productName r) (scan_price (ar_productPrice r))
    (default "" (ar_productDescription r)) (default "" (ar_imageURL r)) 0.

Definition ar_order (r : AllOrderRow) : OrderWithProducts :=
  mkOrderWithProducts (ar_orderID r) (ar_customerID r) (ar_orderDate r)
    (ar_orderStatus r) [].

Definition group_all_rows : list AllOrderRow -> result (list OrderWithProducts) :=
  group_rows ar_scan_ok ar_orderID ar_order ar_product.

Definition getAllOrdersWithProducts (s : Store) : result (list OrderWithProducts) :=
  group_all_rows (all_orders_query s).

(** ** [getOrderDetails]

    [SELECT o.id, o.customer_id, o.date, o.status, p.id, p.name, p.price,
     op.quantity FROM <join> WHERE o.id = $1 AND o.customer_id = $2].
    PostgreSQL rejects the query when [order_products] has no [quantity]
    column. *)
Record DetailRow := mkDetailRow {
  dr_orderID : Z;
  dr_customerID : Z;
  dr_date : Z;
  dr_status : string;
  dr_productID : Z;
  dr_productName : string;
  dr_price : Numeric;
  dr_quantity : Z
}.

Definition order_details_query (s : Store) (orderID customerID : Z)
  : result (list DetailRow) :=
  if has_col "quantity" (order_products_cols (schema s)) then
    Ok ('(o, op, p) ← join3 s;
        if bool_decide (o_id o = orderID /\ o_customer_id o = customerID) then
          [mkDetailRow (o_id o) (o_customer_id o) (o_date o) (o_status o)
             (p_id p) (p_name p) (p_price p) (op_quantity op)]
        else [])
  else Err "pq: column op.quantity does not exist".

(** [order := &OrderWithProducts{ID: orderID, CustomerID: customerID,
    Products: make([]Product, 0)}] *)
Definition details_init (orderID customerID : Z) : OrderWithProducts :=
  mkOrderWithProducts orderID customerID 0 "" [].

(** One iteration after a successful [rows.Scan]: the header fields of
    [order] are overwritten and a fresh [product], with the scanned
    price, is appended. *)
Definition details_step (order : OrderWithProducts) (r : DetailRow) (price : float64)
  : OrderWithProducts :=
  mkOrderWithProducts (dr_orderID r) (dr_customerID r) (dr_date r) (dr_status r)
    (Products order ++ [mkProduct (dr_productID r) (dr_productName r) price
                          "" "" (dr_quantity r)]).

(** [for rows.Next() { if err := rows.Scan(...); err != nil { return nil,
    err }; ... }]: the scan fails on a price beyond the [float64] range. *)
Fixpoint details_loop (order : OrderWithProducts) (rows : list DetailRow)
  : result OrderWithProducts :=
  match rows with
  | [] => Ok order
  | r :: rs =>
      match ParseFloat (dr_price r) with
      | Err e => Err e
      | Ok price => details_loop (details_step order r price) rs
      end
  end.

Definition getOrderDetails (s : Store) (orderID customerID : Z)
  : result OrderWithProducts :=
  match order_details_query s orderID customerID with
  | Err e => Err e
  | Ok rows => details_loop (details_init orderID customerID) rows
  end.

(** ** HTTP requests and responses *)

(** [http.Header]: canonical header names mapped to their values. *)
Definition Header := gmap string (list string).

(** [r.Header.Get(key)]: the first value of [key], or [""]. *)
Definition Header_Get (h : Header) (key : string) : string :=
  match h !! key with
  | Some (v :: _) => v
  | _ => ""
  end.

Record Request := mkRequest {
  Req_Header : Header;
  RemoteAddr : string
}.

Inductive RespBody :=
| BText : string -> RespBody
| BJson : list OrderWithProducts -> RespBody   (** a JSON array of the orders *)
| BJsonNull : RespBody.                          (** the JSON document [null] *)

Record Response := mkResponse {
  StatusCode : Z;
  RespBodyOf : RespBody
}.

Definition StatusOK : Z := 200.
Definition StatusCreated : Z := 201.
Definition StatusBadRequest : Z := 400.
Definition StatusUnauthorized : Z := 401.
Definition StatusInternalServerError : Z := 500.

(** ** [AuthMiddleware]

    A handler runs against some state [W] (the store, files, ...) and
    returns the new state and the response it wrote. *)
Definition customerToken : string := "customer_token".
Definition adminToken : string := "admin_token".

Section Auth.
Context {W : Type}.
Definition HandlerFunc := Request -> W -> W * Response.

Definition AuthMiddleware (next : HandlerFunc) (role : string) : HandlerFunc :=
  fun r w =>
    let token := Header_Get (Req_Header r) "Authorization" in
    if bool_decide (role = "customer") then
      if bool_decide (token <> customerToken) then
        (w, mkResponse StatusUnauthorized (BText "Unauthorized"))
      else next r w
    else if bool_decide (role = "admin") then
      if bool_decide (token <> adminToken) then
        (w, mkResponse StatusUnauthorized (BText "Unauthorized"))
      else next r w
    else (w, mkResponse StatusInternalServerError (BText "Internal Server Error")).
End Auth.

(** The response of a rejected token. *)
Definition unauthorized : Response := mkResponse StatusUnauthorized (BText "Unauthorized").

(** ** [getCustomerID] and [CustomerOrdersHandler] *)

(** The value of a string of decimal digits, [None] on any other
    character. *)
Fixpoint digits_val (s : string) (acc : Z) : option Z :=
  match s with
  | EmptyString => Some acc
  | String c rest =>
      let n := Z.of_nat (Ascii.nat_of_ascii c) in
      if Z.leb 48 n && Z.leb n 57 then digits_val rest (acc * 10 + (n - 48))
      else None
  end.

(** [strconv.Atoi] on a 64-bit platform: an optional sign followed by at
    least one decimal digit, in the range of [int64]; anything else is an
    error. *)
Definition Atoi (s : string) : option Z :=
  let '(neg, body) :=
    match s with
    | String "+"%char rest => (false, rest)
    | String "-"%char rest => (true, rest)
    | _ => (false, s)
    end in
  match body with
  | EmptyString => None
  | _ =>
      match digits_val body 0 with
      | None => None
      | Some v =>
          let v' := if neg then - v else v in
          if Z.leb (- 2 ^ 63) v' && Z.leb v' (2 ^ 63 - 1) then Some v' else None
      end
  end.

Definition getCustomerID (r : Request) : Z :=
  match Atoi (Header_Get (Req_Header r) "X-Customer-ID") with
  | Some customerID => customerID
  | None => 0
  end.

(** ** [json.Marshal] of a [[]OrderWithProducts]

    Encoding fails on a NaN or infinite [float64] ([UnsupportedValueError])
    and on a [time.Time] whose year is outside [0, 9999]
    ([Time.MarshalJSON]); the dates of the store are UTC. The slices the
    two list reads return are built by [append] from a nil slice, so they
    are nil, encoded [null], exactly when they are empty. *)

(** January 1 of the years 0 and 10000, in nanoseconds since the zero
    time (January 1, year 1). *)
Definition year0_start : Z := - 366 * 86400 * Second.
Definition year10000_start : Z := 3652059 * 86400 * Second.

Definition time_json_ok (t : Z) : bool := Z.leb year0_start t && Z.ltb t year10000_start.

Definition float_json_ok (f : float64) : bool :=
  match f with F64 _ => true | _ => false end.

Definition order_json_ok (o : OrderWithProducts) : bool :=
  time_json_ok (Date o) && forallb (fun p => float_json_ok (P_Price p)) (Products o).

Definition Marshal_orders (orders : list OrderWithProducts) : result RespBody :=
  if forallb order_json_ok orders then
    Ok (match orders with [] => BJsonNull | _ => BJson orders end)
  else Err "json: unsupported value".

(** The handler reads the store and does not change it. *)
Definition CustomerOrdersHandler (r : Request) (s : Store) : Store * Response :=
  let customerID := getCustomerID r in
  match getCustomerOrdersWithProducts s customerID with
  | Err _ => (s, mkResponse StatusInternalServerError (BText "Internal Server Error"))
  | Ok orders =>
      match Marshal_orders orders with
      | Err _ => (s, mkResponse StatusInternalServerError (BText "Internal Server Error"))
      | Ok response => (s, mkResponse StatusOK response)
      end
  end.

(** ** [PlaceOrderHandler]

    [OrderRequest], [validateOrderRequest], [createOrder] and
    [associateProducts] are called by [main.go] but are not part of it. *)

(** Modelled from the spec: [OrderRequest], "a customer id and a list of
    (product id, quantity) pairs"; a field missing from the JSON body
    decodes to Go's zero value. *)
Record OrderItem := mkOrderItem {
  ProductID : Z;
  Quantity : Z
}.

Record OrderRequest := mkOrderRequest {
  Req_CustomerID : Z;
  Req_Products : list OrderItem
}.

(** The outcome of [ioutil.ReadAll] followed by [json.Unmarshal]. *)
Inductive RequestBody :=
| BodyReadError
| BodyInvalidJSON
| BodyDecoded : OrderRequest -> RequestBody.

(** Modelled from the spec: [validateOrderRequest], "reject if the
    customer id is missing/non-positive, or the product list is empty, or
    any quantity is non-positive". [None] is a nil error. *)
Definition validateOrderRequest (req : OrderRequest) : option string :=
  if Z.leb (Req_CustomerID req) 0 then Some "invalid customer id"
  else if bool_decide (Req_Products req = []) then Some "no products"
  else if existsb (fun it => Z.leb (Quantity it) 0) (Req_Products req)
  then Some "invalid quantity"
  else None.

(** Modelled from the spec: [createOrder], "insert a new order row with
    the given customer id, current timestamp, and an initial status
    (Pending); obtain the generated order id". The SERIAL sequence
    advances before the foreign key on [customer_id] is checked. *)
Definition createOrder (s : Store) (req : OrderRequest) (now : Z)
  : Store * result Z :=
  let orderID := orders_seq s + 1 in
  let s1 := mkStore (schema s) (customers s) (products s) (orders s)
                    (order_products s) orderID in
  if bool_decide (Exists (fun c => c_id c = Req_CustomerID req) (customers s)) then
    (mkStore (schema s) (customers s) (products s)
       (orders s ++ [mkOrderRow orderID (Req_CustomerID req) now "Pending" None])
       (order_products s) orderID, Ok orderID)
  else (s1, Err "pq: insert or update on table orders violates foreign key constraint").

(** Modelled from the spec: one [INSERT INTO order_products (order_id,
    product_id, quantity)] per requested product. An insert fails without
    a [quantity] column, on an unknown product, or on a duplicate
    (order_id, product_id); rows inserted before a failure stay. *)
Definition insertOrderProduct (s : Store) (orderID : Z) (it : OrderItem)
  : result Store :=
  if negb (has_col "quantity" (order_products_cols (schema s))) then
    Err "pq: column quantity of relation order_products does not exist"
  else if negb (bool_decide (Exists (fun p => p_id p = ProductID it) (products s))) then
    Err "pq: insert or update on table order_products violates foreign key constraint"
  else if bool_decide (Exists (fun op => op_order_id op = orderID /\ op_product_id op = ProductID it)
                         (order_products s)) then
    Err "pq: duplicate key value violates unique constraint"
  else Ok (mkStore (schema s) (customers s) (products s) (orders s)
             (order_products s ++ [mkOrderProductRow orderID (ProductID it) (Quantity it)])
             (orders_seq s)).

Fixpoint associateProducts (s : Store) (orderID : Z) (items : list OrderItem)
  : Store * option string :=
  match items with
  | [] => (s, None)
  | it :: rest =>
      match insertOrderProduct s orderID it with
      | Err e => (s, Some e)
      | Ok s' => associateProducts s' orderID rest
      end
  end.

(** The process state a handler acts on: the store and the content of
    [order_report.csv] (the order whose products it lists). File
    operations are taken to succeed. *)
Record World := mkWorld {
  w_store : Store;
  w_report : option OrderWithProducts
}.

(** [GenerateCSVReport]: [getOrderDetails] first; on its error the file is
    not touched. *)
Definition GenerateCSVReport (w : World) (orderID customerID : Z)
  : World * option string :=
  match getOrderDetails (w_store w) orderID customerID with
  | Err e => (w, Some e)
  | Ok order => (mkWorld (w_store w) (Some order), None)
  end.

Definition PlaceOrderHandler (body : RequestBody) (now : Z) (w : World)
  : World * Response :=
  match body with
  | BodyReadError => (w, mkResponse StatusBadRequest (BText "Bad Request"))
  | BodyInvalidJSON => (w, mkResponse StatusBadRequest (BText "Invalid JSON format"))
  | BodyDecoded orderRequest =>
      match validateOrderRequest orderRequest with
      | Some e => (w, mkResponse StatusBadRequest (BText ("Validation error: " ++ e)))
      | None =>
          let '(s1, r1) := createOrder (w_store w) orderRequest now in
          match r1 with
          | Err _ => (mkWorld s1 (w_report w),
                      mkResponse StatusInternalServerError (BText "Internal Server Error"))
          | Ok orderID =>
              let '(s2, r2) := associateProducts s1 orderID (Req_Products orderRequest) in
              match r2 with
              | Some _ => (mkWorld s2 (w_report w),
                           mkResponse StatusInternalServerError (BText "Internal Server Error"))
              | None =>
                  let '(w3, _) := GenerateCSVReport (mkWorld s2 (w_report w)) orderID
                                    (Req_CustomerID orderRequest) in
                  (w3, mkResponse StatusCreated (BText "Order placed successfully"))
              end
          end
      end
  end.

(** ** [NewRateLimiter]: a [golang.org/x/time/rate] [Limiter]

    [rate.NewLimiter(r, b)] is one token bucket: it refills at [r] tokens
    per second up to [b] tokens. The library is modelled as it behaves
    for a finite limit: [tokens] is a [float64], [last] the time of the
    last granted reservation (the zero [time.Time] for a new limiter). *)
Record Limiter := mkLimiter {
  lim_limit : Q;
  lim_burst : Z;
  lim_tokens : Q;
  lim_last : Z
}.

Definition maxDuration : Z := 2 ^ 63 - 1.
Definition minDuration : Z := - 2 ^ 63.

(** [t.Sub(u)] saturates to the range of [time.Duration]. *)
Definition Time_Sub (t u : Z) : Z := Z.min maxDuration (Z.max minDuration (t - u)).

Definition NewLimiter (r : Q) (b : Z) : Limiter := mkLimiter r b 0%Q 0.

(** [limit.tokensFromDuration(d) = d.Seconds() * float64(limit)], [0] for a
    non-positive limit (on exact rationals, as all the token arithmetic). *)
Definition tokensFromDuration (limit : Q) (d : Z) : Q :=
  if Qle_bool limit 0%Q then 0%Q else ((d # Z.to_pos Second) * limit)%Q.

(** [limit.durationFromTokens(tokens)]: [InfDuration] for a non-positive
    limit, else [time.Duration(float64(time.Second) * tokens / limit)]
    (truncated toward zero; [tokens] is positive where it is used). *)
Definition durationFromTokens (limit : Q) (tokens : Q) : Z :=
  if Qle_bool limit 0%Q then maxDuration
  else Qfloor (inject_Z Second * tokens / limit)%Q.

(** [lim.advance(t)]: the token count at [t], capped at [burst]. *)
Definition advance (lim : Limiter) (t : Z) : Z * Q :=
  let last := if Z.ltb t (lim_last lim) then t else lim_last lim in
  let elapsed := Time_Sub t last in
  let delta := tokensFromDuration (lim_limit lim) elapsed in
  let tokens := (lim_tokens lim + delta)%Q in
  let tokens := if Qle_bool tokens (inject_Z (lim_burst lim)) then tokens
                else inject_Z (lim_burst lim) in
  (t, tokens).

(** [lim.AllowN(t, 1) = lim.reserveN(t, 1, 0).ok]. *)
Definition Limiter_Allow (lim : Limiter) (t : Z) : bool * Limiter :=
  if Qeq_bool (lim_limit lim) 0%Q then
    if Z.leb 1 (lim_burst lim) then
      (true, mkLimiter (lim_limit lim) (lim_burst lim - 1) (lim_tokens lim) (lim_last lim))
    else (false, lim)
  else
    let '(t', tokens) := advance lim t in
    let tokens := (tokens - 1)%Q in
    let waitDuration :=
      if Qle_bool 0%Q tokens then 0 else durationFromTokens (lim_limit lim) (- tokens)%Q in
    if Z.leb 1 (lim_burst lim) && Z.leb waitDuration 0 then
      (true, mkLimiter (lim_limit lim) (lim_burst lim) tokens t')
    else (false, lim).

(** [NewRateLimiter(limit, window)] is
    [rate.NewLimiter(rate.Limit(limit), int(window.Seconds()))]; the burst
    is computed in [float64], so it can exceed the whole seconds of
    [window] by one. *)
Definition NewRateLimiter (limit : Z) (window : Z) : Limiter :=
  NewLimiter (inject_Z limit) (float64_to_int (Duration_Seconds window)).

(** [rateLimiter.Allow(key)] at time [now]: the limiter holds a single
    bucket, so the key selects no state of its own. *)
Definition Allow (lim : Limiter) (key : string) (now : Z) : bool * Limiter :=
  Limiter_Allow lim now.

(** [n] calls [Allow(key)] at the same instant: the answers in order. *)
Fixpoint allow_burst (lim : Limiter) (key : string) (now : Z) (n : nat) : list bool :=
  match n with
  | O => []
  | S n' => let '(ok, lim') := Allow lim key now in ok :: allow_burst lim' key now n'
  end.

(** ** [SendPendingOrderReminders] and [SendEmailReminder]

    The notification collaborator is [send to orderID], true when
    [smtp.SendMail] succeeds. The observable behaviour of a sweep is the
    list of its mail dispatches and log lines. *)
Inductive Event :=
| EvSendMail : string -> Z -> Event
| EvLogSendError : string -> Z -> Event
| EvLogScanError : Event
| EvLogQueryError : string -> Event.

Definition SendEmailReminder (send : string -> Z -> bool) (to : string) (orderID : Z)
  : list Event :=
  EvSendMail to orderID :: (if send to orderID then [] else [EvLogSendError to orderID]).

(** [SELECT id, customer_email FROM orders WHERE status = 'Pending']. *)
Definition pending_orders_query (s : Store) : result (list (Z * option string)) :=
  if has_col "customer_email" (orders_cols (schema s)) then
    Ok (o ← orders s;
        if bool_decide (o_status o = "Pending") then [(o_id o, o_customer_email o)] else [])
  else Err "pq: column customer_email does not exist".

Definition SendPendingOrderReminders (send : string -> Z -> bool) (s : Store)
  : list Event :=
  match pending_orders_query s with
  | Err e => [EvLogQueryError e]
  | Ok rows =>
      '(orderID, customerEmail) ← rows;
      match customerEmail with
      | None => [EvLogScanError]
      | Some email => SendEmailReminder send email orderID
      end
  end.

(** ** [AdminOrdersHandler] *)

Definition AdminOrdersHandler (r : Request) (s : Store) : Store * Response :=
  match getAllOrdersWithProducts s with
  | Err _ => (s, mkResponse StatusInternalServerError (BText "Internal Server Error"))
  | Ok orders =>
      match Marshal_orders orders with
      | Err _ => (s, mkResponse StatusInternalServerError (BText "Internal Server Error"))
      | Ok response => (s, mkResponse StatusOK response)
      end
  end.

(** ** [RateLimitMiddleware] and the routes of [main]

    The server state: the package-level [rateLimiter], shared by every
    route, and the world the handlers act on. *)
Record Server := mkServer {
  srv_limiter : Limiter;
  srv_world : World
}.

Definition StatusTooManyRequests : Z := 429.

(** [RateLimitMiddleware(next)] at time [now]: [rateLimiter.Allow] is
    consulted (and updated) before anything else. *)
Definition RateLimitMiddleware (now : Z) (next : @HandlerFunc Server) : @HandlerFunc Server :=
  fun r srv =>
    let '(ok, lim') := Allow (srv_limiter srv) (RemoteAddr r) now in
    let srv' := mkServer lim' (srv_world srv) in
    if ok then next r srv'
    else (srv', mkResponse StatusTooManyRequests (BText "Rate limit exceeded")).

(** [PlaceOrderHandler] as a handler of the server state. *)
Definition PlaceOrderRoute (body : RequestBody) (now : Z) : @HandlerFunc Server :=
  fun r srv =>
    let '(w', resp) := PlaceOrderHandler body now (srv_world srv) in
    (mkServer (srv_limiter srv) w', resp).

(** A handler of the store as a handler of the server state. *)
Definition store_handler (h : Request -> Store -> Store * Response) : @HandlerFunc Server :=
  fun r srv =>
    let '(s', resp) := h r (w_store (srv_world srv)) in
    (mkServer (srv_limiter srv) (mkWorld s' (w_report (srv_world srv))), resp).

(** The three [r.HandleFunc] registrations of [main] (the method and path
    matching of the router is not modelled). *)
Inductive Route :=
| PostPlaceOrder
| GetCustomerOrders
| GetAdminOrders.

Definition serve (rt : Route) (body : RequestBody) (now : Z) : @HandlerFunc Server :=
  match rt with
  | PostPlaceOrder =>
      RateLimitMiddleware now (AuthMiddleware (PlaceOrderRoute body now) "customer")
  | GetCustomerOrders =>
      AuthMiddleware (store_handler CustomerOrdersHandler) "customer"
  | GetAdminOrders =>
      RateLimitMiddleware now (AuthMiddleware (store_handler AdminOrdersHandler) "admin")
  end.

(** ** [BackgroundTask]

    One iteration of the [for] loop at wall-clock time [now] on store [s]:
    [taskLimiter.Allow("background-task")], then either a sweep followed
    by a sleep until the next midnight, or a sleep of one hour. *)
Definition taskLimiter : Limiter := NewRateLimiter 1 (24 * 3600 * Second).

(** The package-level [rateLimiter = NewRateLimiter(100, time.Minute)]. *)
Definition rateLimiter : Limiter := NewRateLimiter 100 (60 * Second).

Inductive Sleep :=
| SleepUntilNextMidnight
| SleepOneHour.

Definition BackgroundTask_iteration (send : string -> Z -> bool) (lim : Limiter)
    (now : Z) (s : Store) : Limiter * (list Event * Sleep) :=
  let '(ok, lim') := Allow lim "background-task" now in
  if ok then (lim', (SendPendingOrderReminders send s, SleepUntilNextMidnight))
  else (lim', ([], SleepOneHour)).

(** Successive iterations, each at its wake-up time and on the store as it
    then is. *)
Fixpoint BackgroundTask_run (send : string -> Z -> bool) (lim : Limiter)
    (wakes : list (Z * Store)) : list (list Event * Sleep) :=
  match wakes with
  | [] => []
  | (now, s) :: rest =>
      let '(lim', out) := BackgroundTask_iteration send lim now s in
      out :: BackgroundTask_run send lim' rest
  end.

(** Calls [Allow(key)] at the given times: the answers, and the limiter
    after [n] calls at one instant. *)
Fixpoint allow_seq (lim : Limiter) (key : string) (ts : list Z) : list bool :=
  match ts with
  | [] => []
  | t :: ts' => let '(ok, lim') := Allow lim key t in ok :: allow_seq lim' key ts'
  end.

Fixpoint allow_burst_state (lim : Limiter) (key : string) (now : Z) (n : nat) : Limiter :=
  match n with
  | O => lim
  | S n' => allow_burst_state (Allow lim key now).2 key now n'
  end.

(** ** Sample data for the concrete checks *)

(** [order_products] as the code's queries expect it, with [quantity]. *)
Definition schema_with_quantity : Schema :=
  mkSchema ["id"; "customer_id"; "date"; "status"]
           ["order_id"; "product_id"; "quantity"].

(** Customers 1 and 2; orders 1 and 2 of customer 1 with products, order 3
    of customer 2 with products, order 4 of customer 1 without any. *)
Definition sample_store (sch : Schema) : Store :=
  mkStore sch
    [mkCustomerRow 1 "ann" "ann@example.com" "pw1";
     mkCustomerRow 2 "bob" "bob@example.com" "pw2"]
    [mkProductRow 3 "pen" (NumFinite (5 # 2)) (Some "blue") (Some "pen.png");
     mkProductRow 5 "ink" (NumFinite (3 # 1)) (Some "black") (Some "ink.png")]
    [mkOrderRow 1 1 1000 "Pending" None;
     mkOrderRow 2 1 2000 "Shipped" None;
     mkOrderRow 3 2 3000 "Pending" None;
     mkOrderRow 4 1 4000 "Pending" None]
    [mkOrderProductRow 1 3 2; mkOrderProductRow 1 5 1;
     mkOrderProductRow 2 5 4; mkOrderProductRow 3 3 7]
    4.


(** An [orders] table with the [customer_email] column the sweep reads:
    a pending order with an address, a pending one without, and a shipped
    one. *)
Definition sample_store_with_emails : Store :=
  mkStore (mkSchema ["id"; "customer_id"; "date"; "status"; "customer_email"]
                    ["order_id"; "product_id"])
    [] []
    [mkOrderRow 1 1 1000 "Pending" (Some "ann@example.com");
     mkOrderRow 2 2 2000 "Pending" None;
     mkOrderRow 3 1 3000 "Shipped" (Some "ann@example.com")]
    [] 3.

(** A wall-clock instant in 2026, in nanoseconds since the zero time. *)
Definition sample_now : Z := 63920000000 * Second.

(** The server at start-up, and a request with one token. *)
Definition sample_server : Server :=
  mkServer rateLimiter (mkWorld (sample_store initDB_schema) None).

Definition request_with (token remote : string) : Request :=
  mkRequest (<["Authorization" := [token]]> ∅) remote.

(** * Proofs *)

(** ** The grouping loop *)
Section GroupFacts.
Context {R : Type}.
Variable row_scan_ok : R -> bool.
Variable row_orderID : R -> Z.
Variable row_order : R -> OrderWithProducts.
Variable row_product : R -> Product.

Local Abbreviation loop := (group_loop row_scan_ok row_orderID row_order row_product).
Local Abbreviation rows_of k rows := (filter (fun r => row_orderID r = k) rows).
Local Abbreviation group_spec := (group_spec row_orderID row_order row_product).
Local Abbreviation group_correct := (group_correct row_orderID row_order row_product).

Lemma set_Products_app o ps qs :
  set_Products (set_Products o ps) qs = set_Products o qs.
Proof. by destruct o. Qed.

Lemma set_Products_self o : set_Products o (Products o) = o.
Proof. by destruct o. Qed.

Lemma group_loop_lookup rows : forall m m',
  loop m rows = Ok m' ->
  forall k, m' !! k =
    match m !! k with
    | Some o => Some (set_Products o (Products o ++ (row_product <$> rows_of k rows)))
    | None => group_spec rows k
    end.
Proof.
  induction rows as [|r rs IH]; intros m m' Hl k; simpl in Hl.
  - injection Hl as <-. unfold group_spec. simpl.
    destruct (m !! k) as [o|]; [|done].
    by rewrite app_nil_r, set_Products_self.
  - destruct (row_scan_ok r); [|discriminate].
    rewrite (IH _ _ Hl k). unfold group_step, group_spec.
    rewrite filter_cons.
    destruct (decide (row_orderID r = k)) as [<-|Hne].
    + destruct (m !! row_orderID r) as [o|] eqn:Hm;
        rewrite lookup_insert_eq; simpl;
        rewrite set_Products_app; simpl; by rewrite <- ?app_assoc.
    + destruct (m !! row_orderID r) as [o|];
        rewrite lookup_insert_ne by done; reflexivity.
Qed.

Lemma group_loop_empty_lookup rows m' :
  loop ∅ rows = Ok m' -> forall k, m' !! k = group_spec rows k.
Proof. intros Hl k. by rewrite (group_loop_lookup rows ∅ m' Hl k), lookup_empty. Qed.

Hypothesis row_order_ID : forall r, ID (row_order r) = row_orderID r.

Lemma group_spec_ID rows k o : group_spec rows k = Some o -> ID o = k.
Proof.
  unfold group_spec. destruct (rows_of k rows) as [|r rs] eqn:Hf; [done|].
  intros [= <-]. simpl. rewrite row_order_ID.
  assert (Hin : r ∈ rows_of k rows) by (rewrite Hf; left).
  by apply list_elem_of_filter in Hin as [? _].
Qed.

Lemma group_spec_Some rows k : is_Some (group_spec rows k) <-> k ∈ row_orderID <$> rows.
Proof.
  unfold group_spec. rewrite list_elem_of_fmap. split.
  - destruct (rows_of k rows) as [|r rs] eqn:Hf; [by intros []|]. intros _.
    assert (Hin : r ∈ rows_of k rows) by (rewrite Hf; left).
    apply list_elem_of_filter in Hin as [? ?]. eauto.
  - intros (r & -> & Hr).
    destruct (rows_of (row_orderID r) rows) as [|r' rs] eqn:Hf; [|done].
    assert (Hin : r ∈ rows_of (row_orderID r) rows) by (by apply list_elem_of_filter).
    rewrite Hf in Hin. by apply not_elem_of_nil in Hin.
Qed.

Lemma fmap_ID_snd (kvs : list (Z * OrderWithProducts)) :
  Forall (fun kv => ID kv.2 = kv.1) kvs -> ID <$> (snd <$> kvs) = fst <$> kvs.
Proof. induction 1 as [|[k o] kvs Hk _ IH]; [done|]. csimpl. simpl in Hk. by rewrite Hk, IH. Qed.

Lemma group_rows_correct rows l :
  group_rows row_scan_ok row_orderID row_order row_product rows = Ok l ->
  group_correct rows l.
Proof.
  unfold group_rows. destruct (loop ∅ rows) as [m|e] eqn:Hl; [|discriminate].
  intros [= <-].
  pose proof (group_loop_empty_lookup rows m Hl) as Hm.
  assert (Hid : Forall (fun kv => ID kv.2 = kv.1) (map_to_list m)).
  { apply Forall_forall. intros [k o] Hko.
    apply elem_of_map_to_list in Hko. rewrite Hm in Hko.
    by apply group_spec_ID in Hko. }
  unfold group_correct. rewrite fmap_ID_snd by done.
  split; [apply NoDup_fst_map_to_list|split].
  - intros k. rewrite <- group_spec_Some, <- Hm, list_elem_of_fmap. split.
    + intros ([k' o] & -> & Hko). apply elem_of_map_to_list in Hko. by exists o.
    + intros [o Ho]. exists (k, o). split; [done|]. by apply elem_of_map_to_list.
  - intros o Ho. apply list_elem_of_fmap in Ho as ([k o'] & -> & Hko).
    apply elem_of_map_to_list in Hko. rewrite Hm in Hko. simpl.
    rewrite (group_spec_ID rows k o' Hko).
    unfold group_spec in Hko.
    destruct (rows_of k rows) as [|r rs] eqn:Hf; [done|].
    injection Hko as <-. by exists r, rs.
Qed.
End GroupFacts.

(** ** C1 *)

(** C1: for any rows consumed by the grouping fold of
    [getCustomerOrdersWithProducts] or of [getAllOrdersWithProducts], when
    the fold succeeds it emits exactly one record per distinct order id of
    the rows; that record is the one created from the first row with that
    id, and its product sequence is the product entries of exactly the
    rows with that id, in row order (no duplication, no loss). *)
Theorem C1_grouping_fold :
  (forall (rows : list CustomerOrderRow) l,
      group_customer_rows rows = Ok l ->
      group_correct cr_orderID cr_order cr_product rows l) /\
  (forall (rows : list AllOrderRow) l,
      group_all_rows rows = Ok l ->
      group_correct ar_orderID ar_order ar_product rows l).
Proof.
  split; intros rows l; apply group_rows_correct; reflexivity.
Qed.

Lemma C1_witness :
  exists l, group_customer_rows (customer_orders_query (sample_store initDB_schema) 1) = Ok l /\
    group_correct cr_orderID cr_order cr_product
      (customer_orders_query (sample_store initDB_schema) 1) l.
Proof.
  eexists. split.
  - vm_compute. reflexivity.
  - apply (proj1 C1_grouping_fold). vm_compute. reflexivity.
Defined.

(** ** The join and the three queries *)

Lemma join3_elem (s : Store) o op p :
  (o, op, p) ∈ join3 s <->
  o ∈ orders s /\ op ∈ order_products s /\ p ∈ products s /\
  o_id o = op_order_id op /\ op_product_id op = p_id p.
Proof.
  unfold join3. rewrite list_elem_of_bind. split.
  - intros (o' & Hx & Ho). apply list_elem_of_bind in Hx as (op' & Hx & Hop).
    case_bool_decide; [|by apply not_elem_of_nil in Hx].
    apply list_elem_of_bind in Hx as (p' & Hx & Hp).
    case_bool_decide; [|by apply not_elem_of_nil in Hx].
    apply list_elem_of_singleton in Hx. simplify_eq. tauto.
  - intros (Ho & Hop & Hp & H1 & H2). exists o. split; [|done].
    apply list_elem_of_bind. exists op. split; [|done].
    rewrite bool_decide_true by done. apply list_elem_of_bind. exists p.
    split; [|done]. rewrite bool_decide_true by done. by left.
Qed.

Lemma customer_orders_query_elem (s : Store) customerID r :
  r ∈ customer_orders_query s customerID <->
  exists o op p, (o, op, p) ∈ join3 s /\ o_customer_id o = customerID /\
    r = mkCustomerOrderRow (o_id o) (o_date o) (o_status o)
          (p_id p) (p_name p) (p_price p) (p_description p) (p_image_url p).
Proof.
  unfold customer_orders_query. rewrite list_elem_of_bind. split.
  - intros ([[o op] p] & Hx & Hj). case_bool_decide; [|by apply not_elem_of_nil in Hx].
    apply list_elem_of_singleton in Hx. eauto 10.
  - intros (o & op & p & Hj & Hc & ->). exists (o, op, p). split; [|done].
    rewrite bool_decide_true by done. by left.
Qed.

Lemma all_orders_query_elem (s : Store) r :
  r ∈ all_orders_query s <->
  exists o op p, (o, op, p) ∈ join3 s /\
    r = mkAllOrderRow (o_id o) (o_customer_id o) (o_date o) (o_status o)
          (p_id p) (p_name p) (p_price p) (p_description p) (p_image_url p).
Proof.
  unfold all_orders_query. rewrite list_elem_of_bind. split.
  - intros ([[o op] p] & Hx & Hj). apply list_elem_of_singleton in Hx. eauto 10.
  - intros (o & op & p & Hj & ->). exists (o, op, p). split; [|done]. by left.
Qed.

Lemma order_details_query_elem (s : Store) orderID customerID rows r :
  order_details_query s orderID customerID = Ok rows ->
  r ∈ rows <->
  exists o op p, (o, op, p) ∈ join3 s /\ o_id o = orderID /\ o_customer_id o = customerID /\
    r = mkDetailRow (o_id o) (o_customer_id o) (o_date o) (o_status o)
          (p_id p) (p_name p) (p_price p) (op_quantity op).
Proof.
  unfold order_details_query. destruct (has_col _ _); [|discriminate].
  intros [= <-]. rewrite list_elem_of_bind. split.
  - intros ([[o op] p] & Hx & Hj). case_bool_decide as Hc; [|by apply not_elem_of_nil in Hx].
    destruct Hc. apply list_elem_of_singleton in Hx. eauto 10.
  - intros (o & op & p & Hj & Hi & Hc & ->). exists (o, op, p). split; [|done].
    rewrite bool_decide_true by done. by left.
Qed.

Definition detail_product (r : DetailRow) : Product :=
  mkProduct (dr_productID r) (dr_productName r) (scan_price (dr_price r)) "" "" (dr_quantity r).

(** The loop of [getOrderDetails]: when it succeeds, every row's price was
    scanned and the products of the result are those of the start record
    followed by one entry per row. *)
Lemma details_loop_Ok acc rows d :
  details_loop acc rows = Ok d ->
  Forall (fun r => price_scan_ok (dr_price r) = true) rows /\
  Products d = (Products acc ++ (detail_product <$> rows))%list.
Proof.
  revert acc. induction rows as [|r rs IH]; intros acc; simpl.
  - intros [= <-]. by rewrite app_nil_r.
  - destruct (ParseFloat (dr_price r)) as [f|e] eqn:Hp; [|discriminate].
    intros Hl. destruct (IH _ Hl) as [Hok ->]. split.
    + constructor; [|done]. unfold price_scan_ok. by rewrite Hp.
    + simpl. unfold detail_product, scan_price. rewrite Hp.
      by rewrite <- app_assoc.
Qed.


Lemma details_loop_Err acc rows e :
  details_loop acc rows = Err e -> exists r, r ∈ rows /\ price_scan_ok (dr_price r) = false.
Proof.
  revert acc. induction rows as [|r rs IH]; intros acc; simpl; [discriminate|].
  destruct (ParseFloat (dr_price r)) eqn:Hp.
  - intros Hl. destruct (IH _ Hl) as (r' & Hin & Hr'). exists r'. split; [by right|done].
  - intros _. exists r. split; [left|]. unfold price_scan_ok. by rewrite Hp.
Qed.

Lemma getOrderDetails_no_rows (s : Store) orderID customerID d :
  (forall o op p, (o, op, p) ∈ join3 s -> o_id o = orderID -> o_customer_id o = customerID -> False) ->
  getOrderDetails s orderID customerID = Ok d -> d = details_init orderID customerID.
Proof.
  intros Hnone. unfold getOrderDetails.
  destruct (order_details_query s orderID customerID) as [rows|e] eqn:Hq; [|discriminate].
  destruct rows as [|r rs]; [by intros [= <-]|]. intros _. exfalso.
  assert (Hr : r ∈ r :: rs) by left.
  apply (order_details_query_elem _ _ _ _ _ Hq) in Hr as (o & op & p & Hj & Hi & Hc & _).
  eauto.
Qed.

Lemma NoDup_o_id_unique (os : list OrderRow) o1 o2 :
  NoDup (o_id <$> os) -> o1 ∈ os -> o2 ∈ os -> o_id o1 = o_id o2 -> o1 = o2.
Proof.
  induction os as [|o os IH]; simpl; intros Hnd H1 H2 Hid.
  - by apply not_elem_of_nil in H1.
  - apply NoDup_cons in Hnd as [Hnin Hnd].
    apply elem_of_cons in H1 as [->|H1]; apply elem_of_cons in H2 as [->|H2];
      try done.
    + destruct Hnin. rewrite Hid. by apply list_elem_of_fmap_2.
    + destruct Hnin. rewrite <- Hid. by apply list_elem_of_fmap_2.
    + by apply IH.
Qed.

(** ** C5 *)

(** C5: an order with no [order_products] row contributes no join row, so
    no record with its id is emitted by [getCustomerOrdersWithProducts] or
    [getAllOrdersWithProducts], and [getOrderDetails] on it returns only
    the start record built from its two arguments (zero date, empty
    status, no products), the same as for an id with no order at all. *)
Theorem C5_productless_order_absent (s : Store) (orderID : Z) :
  (forall op, op ∈ order_products s -> op_order_id op <> orderID) ->
  (forall customerID l, getCustomerOrdersWithProducts s customerID = Ok l ->
      orderID ∉ ID <$> l) /\
  (forall l, getAllOrdersWithProducts s = Ok l -> orderID ∉ ID <$> l) /\
  (forall customerID d, getOrderDetails s orderID customerID = Ok d ->
      d = details_init orderID customerID).
Proof.
  intros Hnone. split; [|split].
  - intros customerID l Hl Hin.
    destruct (group_rows_correct _ _ cr_order _ (fun _ => eq_refl) _ _ Hl) as (_ & Hk & _).
    apply Hk, list_elem_of_fmap in Hin as (r & Hr & Hin).
    apply customer_orders_query_elem in Hin as (o & op & p & Hj & _ & ->).
    apply join3_elem in Hj as (_ & Hop & _ & Hid & _).
    simpl in Hr. by apply (Hnone op Hop); rewrite <- Hid.
  - intros l Hl Hin.
    destruct (group_rows_correct _ _ ar_order _ (fun _ => eq_refl) _ _ Hl) as (_ & Hk & _).
    apply Hk, list_elem_of_fmap in Hin as (r & Hr & Hin).
    apply all_orders_query_elem in Hin as (o & op & p & Hj & ->).
    apply join3_elem in Hj as (_ & Hop & _ & Hid & _).
    simpl in Hr. by apply (Hnone op Hop); rewrite <- Hid.
  - intros customerID d. apply getOrderDetails_no_rows.
    intros o op p Hj Hi _. apply join3_elem in Hj as (_ & Hop & _ & Hid & _).
    by apply (Hnone op Hop); rewrite <- Hid.
Qed.

Lemma C5_witness :
  (forall op, op ∈ order_products (sample_store schema_with_quantity) -> op_order_id op <> 4) /\
  (forall customerID l, getCustomerOrdersWithProducts (sample_store schema_with_quantity) customerID = Ok l ->
      4 ∉ ID <$> l) /\
  (forall l, getAllOrdersWithProducts (sample_store schema_with_quantity) = Ok l -> 4 ∉ ID <$> l) /\
  (forall customerID d, getOrderDetails (sample_store schema_with_quantity) 4 customerID = Ok d ->
      d = details_init 4 customerID).
Proof.
  assert (H : forall op, op ∈ order_products (sample_store schema_with_quantity) -> op_order_id op <> 4).
  { intros op Hop. repeat (apply elem_of_cons in Hop as [->|Hop]; [simpl; lia|]).
    by apply not_elem_of_nil in Hop. }
  split; [exact H|]. exact (C5_productless_order_absent _ 4 H).
Defined.

(** ** C6 *)

(** C6: [getOrderDetails orderID customerID] on a store where order
    [orderID] belongs to another customer yields no line items: either the
    query fails, or the result is the start record built from the two
    arguments, with no products. And on any store, every line item it
    returns comes from an [order_products] row of an order with id
    [orderID] owned by [customerID]. *)
Theorem C6_ownership_isolation (s : Store) :
  (forall orderID customerID,
      NoDup (o_id <$> orders s) ->
      (exists o, o ∈ orders s /\ o_id o = orderID /\ o_customer_id o <> customerID) ->
      getOrderDetails s orderID customerID = Ok (details_init orderID customerID) \/
      exists e, getOrderDetails s orderID customerID = Err e) /\
  (forall orderID customerID d,
      getOrderDetails s orderID customerID = Ok d ->
      forall p, p ∈ Products d -> exists o op,
        o ∈ orders s /\ op ∈ order_products s /\ o_id o = orderID /\
        o_customer_id o = customerID /\ op_order_id op = orderID /\
        P_ID p = op_product_id op).
Proof.
  split.
  - intros orderID customerID Hnd (o & Ho & Hid & Hc).
    destruct (getOrderDetails s orderID customerID) as [d|e] eqn:Hd; [left|right; eauto].
    f_equal. revert Hd. apply getOrderDetails_no_rows.
    intros o' op p Hj Hi Hc'. apply join3_elem in Hj as (Ho' & _).
    assert (o' = o) as -> by (apply (NoDup_o_id_unique (orders s)); congruence).
    congruence.
  - intros orderID customerID d. unfold getOrderDetails.
    destruct (order_details_query s orderID customerID) as [rows|e] eqn:Hq; [|discriminate].
    intros Hl p Hp. destruct (details_loop_Ok _ _ _ Hl) as [_ Hpr].
    rewrite Hpr in Hp. simpl in Hp.
    apply list_elem_of_fmap in Hp as (r & -> & Hr).
    apply (order_details_query_elem _ _ _ _ _ Hq) in Hr as (o & op & pr & Hj & Hi & Hc & ->).
    apply join3_elem in Hj as (Ho & Hop & _ & Hid & Hpid).
    exists o, op. simpl. repeat split; try done; congruence.
Qed.

Lemma C6_witness :
  NoDup (o_id <$> orders (sample_store schema_with_quantity)) /\
  (exists o, o ∈ orders (sample_store schema_with_quantity) /\ o_id o = 3 /\ o_customer_id o <> 1) /\
  (getOrderDetails (sample_store schema_with_quantity) 3 1 = Ok (details_init 3 1) \/
   exists e, getOrderDetails (sample_store schema_with_quantity) 3 1 = Err e).
Proof.
  assert (Hnd : NoDup (o_id <$> orders (sample_store schema_with_quantity))) by (apply (bool_decide_unpack _); vm_compute; reflexivity).
  assert (Hex : exists o, o ∈ orders (sample_store schema_with_quantity) /\ o_id o = 3 /\ o_customer_id o <> 1).
  { eexists. split; [do 2 right; left|]. simpl. split; [reflexivity|lia]. }
  split; [exact Hnd|split; [exact Hex|]].
  exact (proj1 (C6_ownership_isolation (sample_store schema_with_quantity)) 3 1 Hnd Hex).
Defined.

(** ** C10 *)

(** C10: every record returned by [getCustomerOrdersWithProducts] has
    [CustomerID] 0, whatever the requested customer: the record literal of
    the customer-scoped read never sets that field. *)
Theorem C10_customer_orders_zero_customer (s : Store) (customerID : Z) l :
  getCustomerOrdersWithProducts s customerID = Ok l ->
  forall o, o ∈ l -> CustomerID o = 0.
Proof.
  intros Hl o Ho.
  destruct (group_rows_correct _ _ cr_order _ (fun _ => eq_refl) _ _ Hl) as (_ & _ & Hrec).
  destruct (Hrec o Ho) as (r & rs & _ & ->). reflexivity.
Qed.

Lemma C10_witness :
  exists l, getCustomerOrdersWithProducts (sample_store initDB_schema) 1 = Ok l /\
    l <> [] /\ forall o, o ∈ l -> CustomerID o = 0.
Proof.
  eexists. split; [vm_compute; reflexivity|]. split; [discriminate|].
  apply (C10_customer_orders_zero_customer (sample_store initDB_schema) 1).
  vm_compute. reflexivity.
Defined.

(** ** C3 *)

(** C3: a decoded order request with a non-positive (or missing, hence
    zero) customer id, an empty product list, or a non-positive quantity
    is answered 400 with a validation message, a client error distinct
    from the 500 of persistence failures, and the handler returns the
    state unchanged: no order row, no association row, no report. *)
Theorem C3_invalid_request_rejected (w : World) (now : Z) (req : OrderRequest) :
  (Req_CustomerID req <= 0 \/ Req_Products req = [] \/
   exists it, it ∈ Req_Products req /\ Quantity it <= 0) ->
  exists msg, PlaceOrderHandler (BodyDecoded req) now w =
    (w, mkResponse StatusBadRequest (BText ("Validation error: " ++ msg))).
Proof.
  intros Hinv. unfold PlaceOrderHandler.
  assert (Hv : exists msg, validateOrderRequest req = Some msg).
  { unfold validateOrderRequest.
    destruct (Z.leb_spec (Req_CustomerID req) 0) as [Hc|Hc]; [eauto|].
    case_bool_decide as Hp; [eauto|].
    destruct (existsb _ _) eqn:He; [eauto|exfalso].
    destruct Hinv as [Hinv|[Hinv|(it & Hit & Hq)]]; [lia|done|].
    assert (Hf : existsb (fun it => Z.leb (Quantity it) 0) (Req_Products req) = true).
    { apply existsb_exists. exists it. split; [by apply list_elem_of_In|].
      by apply Z.leb_le. }
    congruence. }
  destruct Hv as [msg ->]. eauto.
Qed.

Lemma C3_witness :
  exists msg, PlaceOrderHandler (BodyDecoded (mkOrderRequest 1 [mkOrderItem 3 2; mkOrderItem 5 0]))
                sample_now (mkWorld (sample_store initDB_schema) None) =
    (mkWorld (sample_store initDB_schema) None,
     mkResponse StatusBadRequest (BText ("Validation error: " ++ msg))).
Proof.
  apply C3_invalid_request_rejected. right; right.
  exists (mkOrderItem 5 0). split; [right; left|simpl; lia].
Defined.

(** ** C4 *)

(** C4: [AuthMiddleware] compares the [Authorization] header with the
    secret of the route's role by string equality: on a match it is the
    wrapped handler itself; on a mismatch (an absent header reads as [""],
    and the other role's secret is a mismatch) it answers 401 and leaves
    the state as it was, whatever the wrapped handler is; on any other
    role it answers 500. *)
Theorem C4_access_control {W : Type} (next : @HandlerFunc W) (r : Request) (w : W) :
  let token := Header_Get (Req_Header r) "Authorization" in
  (token = customerToken -> AuthMiddleware next "customer" r w = next r w) /\
  (token <> customerToken -> AuthMiddleware next "customer" r w = (w, unauthorized)) /\
  (token = adminToken -> AuthMiddleware next "admin" r w = next r w) /\
  (token <> adminToken -> AuthMiddleware next "admin" r w = (w, unauthorized)) /\
  (forall role, role <> "customer" -> role <> "admin" ->
     AuthMiddleware next role r w =
       (w, mkResponse StatusInternalServerError (BText "Internal Server Error"))) /\
  (Req_Header r !! "Authorization" = None ->
     AuthMiddleware next "customer" r w = (w, unauthorized) /\
     AuthMiddleware next "admin" r w = (w, unauthorized)) /\
  (token = adminToken -> AuthMiddleware next "customer" r w = (w, unauthorized)) /\
  (token = customerToken -> AuthMiddleware next "admin" r w = (w, unauthorized)).
Proof.
  intros token. unfold AuthMiddleware. fold token.
  assert (Hnone : Req_Header r !! "Authorization" = None -> token = "")
    by (intros H; unfold token, Header_Get; by rewrite H).
  unfold customerToken, adminToken.
  repeat split; intros;
    repeat match goal with H : Req_Header r !! _ = None |- _ => apply Hnone in H end;
    repeat (case_bool_decide; try congruence); done.
Qed.

Lemma C4_witness :
  AuthMiddleware (W := Store) CustomerOrdersHandler "customer"
    (mkRequest {[ "Authorization" := ["admin_token"] ]} "10.0.0.1:5000") (sample_store initDB_schema) =
  (sample_store initDB_schema, unauthorized).
Proof.
  exact (proj1 (proj2 (proj2 (proj2 (proj2 (proj2 (proj2
    (C4_access_control (W := Store) CustomerOrdersHandler
       (mkRequest {[ "Authorization" := ["admin_token"] ]} "10.0.0.1:5000")
       (sample_store initDB_schema)))))))) eq_refl).
Defined.

(** ** C9 *)




(** ** C7 *)

(** C7 fails on the code: the [order_products] table created by [initDB]
    has no [quantity] column, so no association row carries a quantity;
    and the query of [getOrderDetails], which selects [op.quantity], fails
    on every store with that table. *)
Theorem C7_initDB_order_products_no_quantity (s : Store) :
  has_col "quantity" (order_products_cols initDB_schema) = false /\
  (order_products_cols (schema s) = order_products_cols initDB_schema ->
   forall orderID customerID, exists e, getOrderDetails s orderID customerID = Err e).
Proof.
  split; [reflexivity|].
  intros Hs orderID customerID. unfold getOrderDetails, order_details_query.
  rewrite Hs. simpl. eauto.
Qed.

Lemma C7_witness :
  exists e, getOrderDetails (sample_store initDB_schema) 1 1 = Err e.
Proof.
  exact (proj2 (C7_initDB_order_products_no_quantity (sample_store initDB_schema)) eq_refl 1 1).
Defined.

(** ** C8 *)

(** C8 fails on the code: the sweep reads [customer_email] from [orders],
    a column the [orders] table of [initDB] does not have; on every such
    store the query fails and the sweep only logs that error, so no
    pending order is ever notified. *)
Theorem C8_sweep_query_fails_on_initDB (send : string -> Z -> bool) (s : Store) :
  orders_cols (schema s) = orders_cols initDB_schema ->
  SendPendingOrderReminders send s =
    [EvLogQueryError "pq: column customer_email does not exist"].
Proof.
  intros Hs. unfold SendPendingOrderReminders, pending_orders_query.
  rewrite Hs. reflexivity.
Qed.

(** Where [orders] does have a [customer_email] column, the sweep
    dispatches to every pending order with an address, whatever the
    outcome of the other dispatches. *)
Lemma sweep_dispatches_every_pending (send : string -> Z -> bool) (s : Store) :
  has_col "customer_email" (orders_cols (schema s)) = true ->
  forall o email, o ∈ orders s -> o_status o = "Pending" -> o_customer_email o = Some email ->
  EvSendMail email (o_id o) ∈ SendPendingOrderReminders send s.
Proof.
  intros Hs o email Ho Hp He. unfold SendPendingOrderReminders, pending_orders_query.
  rewrite Hs. apply list_elem_of_bind. exists (o_id o, Some email). split.
  - unfold SendEmailReminder. left.
  - apply list_elem_of_bind. exists o. split; [|done].
    rewrite bool_decide_true by done. rewrite He. left.
Qed.

Lemma C8_witness :
  SendPendingOrderReminders (fun _ _ => true) (sample_store initDB_schema) =
    [EvLogQueryError "pq: column customer_email does not exist"].
Proof. apply C8_sweep_query_fails_on_initDB. reflexivity. Defined.

(** * Further properties of the code *)

(** ** The token bucket of [NewRateLimiter] *)

(** Rational (in)equalities as integer ones on numerators and
    denominators. *)
Ltac qnorm :=
  unfold Qle, Qlt, Qeq, Qplus, Qmult, Qminus, Qopp, inject_Z in *; simpl in *;
  rewrite ?Pos2Z.inj_mul in *.

Lemma Time_Sub_bounds t u : u <= t -> 0 <= Time_Sub t u <= t - u.
Proof. unfold Time_Sub, maxDuration, minDuration. lia. Qed.

Lemma tokensFromDuration_nonneg limit d : 0 <= d -> (0 <= tokensFromDuration limit d)%Q.
Proof.
  intros Hd. unfold tokensFromDuration. destruct (Qle_bool limit 0%Q) eqn:Hl.
  - apply Qle_refl.
  - apply Qmult_le_0_compat.
    + qnorm. lia.
    + apply Qlt_le_weak, Qnot_le_lt. intros H. apply Qle_bool_iff in H. congruence.
Qed.

(** The bucket never loses tokens by waiting and never exceeds [burst]. *)
Lemma advance_bounds lim t :
  (lim_tokens lim <= inject_Z (lim_burst lim))%Q ->
  (lim_tokens lim <= (advance lim t).2 <= inject_Z (lim_burst lim))%Q.
Proof.
  intros Hb. unfold advance. simpl.
  set (last := if Z.ltb t (lim_last lim) then t else lim_last lim).
  assert (Hlast : last <= t) by (unfold last; destruct (Z.ltb_spec t (lim_last lim)); lia).
  pose proof (tokensFromDuration_nonneg (lim_limit lim) (Time_Sub t last)
                (proj1 (Time_Sub_bounds t last Hlast))) as Hd.
  set (delta := tokensFromDuration _ _) in *.
  destruct (Qle_bool (lim_tokens lim + delta) (inject_Z (lim_burst lim))) eqn:Hc.
  - apply Qle_bool_iff in Hc. split; [|exact Hc].
    rewrite <- (Qplus_0_r (lim_tokens lim)) at 1. apply Qplus_le_compat; [apply Qle_refl|exact Hd].
  - split; [exact Hb|apply Qle_refl].
Qed.

(** Calls at the instant of the last grant find the bucket unchanged. *)
Lemma advance_same_instant lim t :
  lim_last lim = t -> (lim_tokens lim <= inject_Z (lim_burst lim))%Q ->
  ((advance lim t).2 == lim_tokens lim)%Q.
Proof.
  intros Ht Hb. unfold advance. simpl. rewrite Ht, Z.ltb_irrefl.
  assert (Hd : (tokensFromDuration (lim_limit lim) (Time_Sub t t) == 0)%Q).
  { unfold tokensFromDuration, Time_Sub, maxDuration, minDuration.
    rewrite Z.sub_diag. simpl. destruct (Qle_bool _ _); [reflexivity|].
    qnorm. lia. }
  destruct (Qle_bool (lim_tokens lim + tokensFromDuration (lim_limit lim) (Time_Sub t t))
                     (inject_Z (lim_burst lim))) eqn:Hc.
  - rewrite Hd. apply Qplus_0_r.
  - exfalso. apply Bool.not_true_iff_false in Hc. apply Hc, Qle_bool_iff.
    rewrite Hd, Qplus_0_r. exact Hb.
Qed.

Lemma limit_not_zero L : 1 <= L -> Qeq_bool (inject_Z L) 0%Q = false.
Proof.
  intros HL. destruct (Qeq_bool _ _) eqn:H; [|done].
  apply Qeq_bool_iff in H. qnorm. lia.
Qed.

(** A call finding at least one token in the bucket is granted and takes
    one token; the limiter records the call's time. *)
Lemma Allow_grant lim key t L :
  lim_limit lim = inject_Z L -> 1 <= L -> 1 <= lim_burst lim ->
  (1 <= (advance lim t).2)%Q ->
  Allow lim key t =
    (true, mkLimiter (inject_Z L) (lim_burst lim) ((advance lim t).2 - 1)%Q t).
Proof.
  intros Hl HL Hb Ha. unfold Allow, Limiter_Allow. rewrite Hl, limit_not_zero by done.
  rewrite <- Hl.
  replace (advance lim t) with (t, (advance lim t).2) by (unfold advance; reflexivity).
  destruct (Qle_bool 0%Q ((advance lim t).2 - 1)%Q) eqn:Hz.
  - rewrite (proj2 (Z.leb_le 1 _) Hb). simpl. by rewrite Hl.
  - exfalso. apply Bool.not_true_iff_false in Hz. apply Hz, Qle_bool_iff.
    destruct ((advance lim t).2) as [n d]. qnorm. lia.
Qed.

(** With at most [10^9] tokens per second, a call finding an empty bucket
    is refused and leaves the limiter as it was. *)
Lemma Allow_refuse_empty lim key t L :
  lim_limit lim = inject_Z L -> 1 <= L <= Second ->
  ((advance lim t).2 == 0)%Q ->
  Allow lim key t = (false, lim).
Proof.
  intros Hl HL Ha. unfold Allow, Limiter_Allow. rewrite Hl, limit_not_zero by lia.
  replace (advance lim t) with (t, (advance lim t).2) by (unfold advance; reflexivity).
  destruct ((advance lim t).2) as [n d] eqn:Hadv. simpl. rewrite ?Hadv in Ha.
  destruct (Qle_bool 0%Q ((n # d) - 1)%Q) eqn:Hz.
  { exfalso. apply Qle_bool_iff in Hz. qnorm. lia. }
  unfold durationFromTokens. rewrite <- Hl.
  destruct (Qle_bool (lim_limit lim) 0%Q) eqn:Hl0.
  { rewrite Hl in Hl0. apply Qle_bool_iff in Hl0. qnorm. lia. }
  assert (Hf : 1 <= Qfloor (inject_Z Second * - ((n # d) - 1) / lim_limit lim)%Q).
  { rewrite <- (Qfloor_Z 1). apply Qfloor_resp_le. rewrite Hl.
    destruct L as [|pL|pL]; [lia| |lia].
    unfold Qdiv, Qinv. simpl. qnorm. rewrite ?Z.div_1_r in *. unfold Second in *. nia. }
  set (w := Qfloor _) in *. rewrite (proj2 (Z.leb_gt w 0)) by lia.
  rewrite Bool.andb_false_r. reflexivity.
Qed.

(** A fresh limiter with a positive limit has a full bucket at its first
    call, when that call comes [burst] seconds or more after the zero
    time. *)
Lemma fresh_advance_full L b t :
  1 <= L -> 0 <= b -> b * Second <= t -> b * Second <= maxDuration ->
  ((advance (NewLimiter (inject_Z L) b) t).2 == inject_Z b)%Q.
Proof.
  intros Hl Hb Ht Hm.
  unfold advance, NewLimiter; simpl.
  rewrite (proj2 (Z.ltb_ge t 0)) by (unfold Second in *; lia).
  assert (He : b * Second <= Time_Sub t 0).
  { unfold Time_Sub, maxDuration, minDuration in *. lia. }
  unfold tokensFromDuration.
  destruct (Qle_bool (inject_Z L) 0) eqn:Hlim.
  { apply Qle_bool_iff in Hlim. qnorm. lia. }
  clear Hlim. set (e := Time_Sub t 0) in *.
  destruct (Qle_bool _ _) eqn:Hc.
  - apply Qle_bool_iff in Hc. apply Qle_antisym; [exact Hc|].
    qnorm. unfold Second in *. nia.
  - reflexivity.
Qed.

(** The first call to such a fresh limiter is granted and leaves
    [burst - 1] tokens. *)
Lemma fresh_first_grant L b key t :
  1 <= L -> 1 <= b -> b * Second <= t -> b * Second <= maxDuration ->
  exists lim', Allow (NewLimiter (inject_Z L) b) key t = (true, lim') /\
    lim_limit lim' = inject_Z L /\ lim_burst lim' = b /\
    (lim_tokens lim' == inject_Z (b - 1))%Q /\ lim_last lim' = t.
Proof.
  intros HL Hb Ht Hm.
  pose proof (fresh_advance_full L b t HL ltac:(lia) Ht Hm) as Ha.
  rewrite (Allow_grant (NewLimiter (inject_Z L) b) key t L eq_refl HL Hb).
  - remember ((advance (NewLimiter (inject_Z L) b) t).2) as a eqn:Ea. clear Ea.
    eexists. split; [reflexivity|]. simpl. repeat split.
    destruct a as [n d]. qnorm. lia.
  - rewrite Ha. qnorm. lia.
Qed.

(** A limiter with a positive limit and a burst below one refuses every
    call and stays as it is. *)
Lemma Allow_burst_nonpos lim key t L :
  lim_limit lim = inject_Z L -> 1 <= L -> lim_burst lim <= 0 ->
  Allow lim key t = (false, lim).
Proof.
  intros Hl HL Hb. unfold Allow, Limiter_Allow. rewrite Hl, limit_not_zero by done.
  destruct (advance lim t) as [t' tk].
  by rewrite (proj2 (Z.leb_gt 1 (lim_burst lim))) by lia.
Qed.

Lemma allow_burst_nonpos lim key t L n :
  lim_limit lim = inject_Z L -> 1 <= L -> lim_burst lim <= 0 ->
  allow_burst lim key t n = repeat false n.
Proof.
  intros Hl HL Hb. induction n as [|n IH]; [reflexivity|].
  simpl. rewrite (Allow_burst_nonpos lim key t L Hl HL Hb). by rewrite IH.
Qed.

(** While the bucket holds at least [j >= 1] tokens, a call is granted and
    at least [j - 1] remain. *)
Lemma Allow_grant_inv lim key t L j :
  lim_limit lim = inject_Z L -> 1 <= L -> 1 <= j ->
  (inject_Z j <= lim_tokens lim)%Q -> (lim_tokens lim <= inject_Z (lim_burst lim))%Q ->
  exists lim', Allow lim key t = (true, lim') /\
    lim_limit lim' = inject_Z L /\ lim_burst lim' = lim_burst lim /\
    (inject_Z (j - 1) <= lim_tokens lim')%Q /\ (lim_tokens lim' <= inject_Z (lim_burst lim))%Q.
Proof.
  intros Hl HL Hj Hlo Hhi.
  pose proof (advance_bounds lim t Hhi) as [Ha1 Ha2].
  assert (Hb : 1 <= lim_burst lim).
  { pose proof (Qle_trans _ _ _ Hlo Hhi) as H. qnorm. lia. }
  rewrite (Allow_grant lim key t L Hl HL Hb).
  - remember ((advance lim t).2) as a eqn:Ea. clear Ea.
    remember (lim_tokens lim) as tk eqn:Etk. clear Etk.
    eexists. split; [reflexivity|]. simpl. repeat split.
    + rewrite <- Z.add_opp_r, inject_Z_plus. unfold Qminus.
      apply Qplus_le_compat; [exact (Qle_trans _ _ _ Hlo Ha1)|apply Qle_refl].
    + destruct a as [n d]. qnorm. nia.
  - apply (Qle_trans _ (inject_Z j)); [qnorm; lia|exact (Qle_trans _ _ _ Hlo Ha1)].
Qed.

Lemma allow_seq_granted key L ts : forall lim j,
  lim_limit lim = inject_Z L -> 1 <= L -> Z.of_nat (length ts) <= j ->
  (inject_Z j <= lim_tokens lim)%Q -> (lim_tokens lim <= inject_Z (lim_burst lim))%Q ->
  allow_seq lim key ts = repeat true (length ts).
Proof.
  induction ts as [|t ts IH]; intros lim j Hl HL Hn Hlo Hhi; [reflexivity|].
  simpl in Hn.
  destruct (Allow_grant_inv lim key t L j Hl HL ltac:(lia) Hlo Hhi)
    as (lim' & Heq & Hl' & Hb' & Hlo' & Hhi').
  simpl. rewrite Heq. f_equal.
  apply (IH lim' (j - 1) Hl' HL ltac:(lia) Hlo'). by rewrite Hb'.
Qed.

Lemma BackgroundTask_run_granted send L wakes : forall lim j,
  lim_limit lim = inject_Z L -> 1 <= L -> Z.of_nat (length wakes) <= j ->
  (inject_Z j <= lim_tokens lim)%Q -> (lim_tokens lim <= inject_Z (lim_burst lim))%Q ->
  BackgroundTask_run send lim wakes =
    (fun w => (SendPendingOrderReminders send w.2, SleepUntilNextMidnight)) <$> wakes.
Proof.
  induction wakes as [|[t s] wakes IH]; intros lim j Hl HL Hn Hlo Hhi; [reflexivity|].
  simpl in Hn.
  destruct (Allow_grant_inv lim "background-task" t L j Hl HL ltac:(lia) Hlo Hhi)
    as (lim' & Heq & Hl' & Hb' & Hlo' & Hhi').
  simpl. unfold BackgroundTask_iteration. rewrite Heq. f_equal.
  apply (IH lim' (j - 1) Hl' HL ltac:(lia) Hlo'). by rewrite Hb'.
Qed.

(** Calls at one instant on a bucket holding exactly [j] tokens: the
    first [j] are granted, the rest refused, and the bucket keeps its
    limit, burst and time. *)
Lemma allow_burst_exact key t L n : forall lim (j : nat),
  lim_limit lim = inject_Z L -> 1 <= L <= Second -> 1 <= lim_burst lim ->
  lim_last lim = t ->
  (lim_tokens lim == inject_Z (Z.of_nat j))%Q -> Z.of_nat j <= lim_burst lim ->
  allow_burst lim key t n = (repeat true (Nat.min n j) ++ repeat false (n - j))%list /\
  lim_limit (allow_burst_state lim key t n) = inject_Z L /\
  lim_burst (allow_burst_state lim key t n) = lim_burst lim /\
  lim_last (allow_burst_state lim key t n) = t /\
  (lim_tokens (allow_burst_state lim key t n) == inject_Z (Z.of_nat (j - Nat.min n j)))%Q.
Proof.
  induction n as [|n IH]; intros lim j Hl HL Hb Ht Htok Hj.
  { simpl. rewrite Nat.sub_0_r. auto. }
  assert (Hhi : (lim_tokens lim <= inject_Z (lim_burst lim))%Q).
  { rewrite Htok. qnorm. lia. }
  pose proof (advance_same_instant lim t Ht Hhi) as Ha.
  destruct j as [|j].
  - assert (Hr : Allow lim key t = (false, lim)).
    { apply (Allow_refuse_empty lim key t L Hl HL). rewrite Ha, Htok. reflexivity. }
    destruct (IH lim 0%nat Hl HL Hb Ht Htok Hj) as (IH1 & IH2).
    simpl. rewrite Hr. simpl. rewrite Nat.min_0_r in IH1. rewrite IH1. simpl.
    rewrite Nat.sub_0_r in *. auto.
  - assert (Hg : Allow lim key t =
        (true, mkLimiter (inject_Z L) (lim_burst lim) ((advance lim t).2 - 1)%Q t)).
    { apply (Allow_grant lim key t L Hl ltac:(lia) Hb). rewrite Ha, Htok. qnorm. lia. }
    assert (Htok' : (((advance lim t).2 - 1)%Q == inject_Z (Z.of_nat j))%Q).
    { rewrite Ha, Htok. qnorm. lia. }
    destruct (IH (mkLimiter (inject_Z L) (lim_burst lim) ((advance lim t).2 - 1)%Q t) j
                eq_refl HL Hb eq_refl Htok' ltac:(simpl; lia)) as (IH1 & IH2).
    cbn [allow_burst allow_burst_state]. rewrite Hg. cbn [fst snd].
    rewrite IH1. split; [reflexivity|exact IH2].
Qed.

(** After waiting at least a second, a bucket with a limit of at least one
    token per second holds at least one token. *)
Lemma advance_refill lim t' L :
  lim_limit lim = inject_Z L -> 1 <= L -> 1 <= lim_burst lim ->
  (0 <= lim_tokens lim)%Q -> lim_last lim + Second <= t' ->
  (1 <= (advance lim t').2)%Q.
Proof.
  intros Hl HL Hb Htok Ht. unfold advance. simpl.
  rewrite (proj2 (Z.ltb_ge t' (lim_last lim))) by (unfold Second in *; lia).
  assert (He : Second <= Time_Sub t' (lim_last lim)).
  { unfold Time_Sub, maxDuration, minDuration, Second in *. lia. }
  unfold tokensFromDuration.
  destruct (Qle_bool (lim_limit lim) 0) eqn:Hl0.
  { rewrite Hl in Hl0. apply Qle_bool_iff in Hl0. qnorm. lia. }
  rewrite Hl. destruct (Qle_bool (_ + _) _) eqn:Hc.
  - revert Htok. generalize (lim_tokens lim). intros [n d] ?.
    set (e := Time_Sub t' (lim_last lim)) in *. qnorm. unfold Second in *.
    assert (1000000000 <= e * L) by nia.
    assert (1000000000 * Z.pos d <= e * L * Z.pos d) by nia. nia.
  - qnorm. lia.
Qed.

(** [n >= 1] calls at one instant on a fresh limiter with
    [1 <= limit <= 10^9] and [burst >= 1], the instant [burst] seconds or
    more after the zero time: the limiter keeps its limit and burst, has
    the instant as its time, and [burst - min n burst] tokens. *)
Lemma fresh_burst_state L b key t n :
  1 <= L <= Second -> 1 <= b -> b * Second <= t -> b * Second <= maxDuration ->
  (1 <= n)%nat ->
  lim_limit (allow_burst_state (NewLimiter (inject_Z L) b) key t n) = inject_Z L /\
  lim_burst (allow_burst_state (NewLimiter (inject_Z L) b) key t n) = b /\
  lim_last (allow_burst_state (NewLimiter (inject_Z L) b) key t n) = t /\
  (lim_tokens (allow_burst_state (NewLimiter (inject_Z L) b) key t n) ==
     inject_Z (b - Z.of_nat (Nat.min n (Z.to_nat b))))%Q.
Proof.
  intros HL Hb Ht Hm Hn. destruct n as [|n]; [lia|].
  destruct (fresh_first_grant L b key t ltac:(lia) Hb Ht Hm)
    as (lim' & Heq & Hl & Hb' & Htok & Hlast).
  cbn [allow_burst_state]. rewrite Heq. cbn [snd].
  destruct (allow_burst_exact key t L n lim' (Z.to_nat (b - 1))
              Hl HL ltac:(lia) Hlast ltac:(rewrite Htok; qnorm; lia) ltac:(lia))
    as (_ & Hl' & Hb'' & Ht'' & Htok').
  rewrite Hl', Hb'', Ht'', Htok', Hb'. repeat split.
  assert (Z.of_nat (Z.to_nat (b - 1) - Nat.min n (Z.to_nat (b - 1))) =
          b - Z.of_nat (Nat.min (S n) (Z.to_nat b))) as -> by lia.
  reflexivity.
Qed.

(** The answers to [n] calls at one instant on such a fresh limiter. *)
Lemma fresh_burst_answers L b key t n :
  1 <= L <= Second -> b * Second <= t -> b * Second <= maxDuration ->
  allow_burst (NewLimiter (inject_Z L) b) key t n =
    (repeat true (Nat.min n (Z.to_nat b)) ++ repeat false (n - Z.to_nat b))%list.
Proof.
  intros HL Ht Hm.
  destruct (Z.le_gt_cases b 0) as [Hb|Hb].
  { rewrite (allow_burst_nonpos (NewLimiter (inject_Z L) b) key t L n eq_refl ltac:(lia) Hb).
    replace (Z.to_nat b) with 0%nat by lia. by rewrite Nat.min_0_r, Nat.sub_0_r. }
  destruct n as [|n]; [reflexivity|].
  destruct (fresh_first_grant L b key t ltac:(lia) ltac:(lia) Ht Hm)
    as (lim' & Heq & Hl & Hb' & Htok & Hlast).
  cbn [allow_burst]. rewrite Heq.
  destruct (Z.to_nat b) as [|k] eqn:Ek; [lia|].
  destruct (allow_burst_exact key t L n lim' k Hl HL ltac:(lia) Hlast
              ltac:(rewrite Htok; qnorm; lia) ltac:(lia)) as [-> _].
  reflexivity.
Qed.

(** X1: let [b] be the burst [int(window.Seconds())] of
    [NewRateLimiter(limit, window)], with [limit >= 1]. Its first [b]
    calls (or fewer) are all granted, whatever their times, when the
    first comes [b] seconds or more after the zero time and [b] seconds
    fit in a [time.Duration]. *)
Theorem X1_fresh_limiter_grants_window L window key t1 rest :
  1 <= L ->
  lim_burst (NewRateLimiter L window) * Second <= t1 ->
  lim_burst (NewRateLimiter L window) * Second <= maxDuration ->
  (S (length rest) <= Z.to_nat (lim_burst (NewRateLimiter L window)))%nat ->
  allow_seq (NewRateLimiter L window) key (t1 :: rest) = repeat true (S (length rest)).
Proof.
  change (NewRateLimiter L window)
    with (NewLimiter (inject_Z L) (float64_to_int (Duration_Seconds window))).
  set (b := float64_to_int (Duration_Seconds window)). cbn [lim_burst NewLimiter].
  intros HL Ht Hm Hn.
  destruct (fresh_first_grant L b key t1 HL ltac:(lia) Ht Hm) as (lim' & Heq & Hl & Hb & Htok & _).
  cbn [allow_seq repeat]. rewrite Heq. f_equal.
  apply (allow_seq_granted key L rest lim' (b - 1) Hl HL).
  - lia.
  - rewrite Htok. apply Qle_refl.
  - rewrite Htok, Hb. qnorm. lia.
Qed.

Lemma X1_witness :
  allow_seq rateLimiter "10.0.0.1"
    [sample_now; sample_now; sample_now - 5 * Second; sample_now + 1] = repeat true 4.
Proof.
  apply (X1_fresh_limiter_grants_window 100 (60 * Second) "10.0.0.1" sample_now
           [sample_now; sample_now - 5 * Second; sample_now + 1]);
    [lia|vm_compute; first [discriminate|lia]..].
Defined.

(** X2: let [b] be the burst [int(window.Seconds())] of
    [NewRateLimiter(limit, window)], with [1 <= limit <= 10^9]. Of [n]
    calls made at one instant on the fresh limiter, [b] seconds or more
    after the zero time (with [b] seconds in the range of a
    [time.Duration]), the first [b] are granted and every later one is
    refused; when [b <= 0] (a window under one second) every call is
    refused. *)
Theorem X2_burst_at_one_instant L window key t n :
  1 <= L <= Second ->
  lim_burst (NewRateLimiter L window) * Second <= t ->
  lim_burst (NewRateLimiter L window) * Second <= maxDuration ->
  allow_burst (NewRateLimiter L window) key t n =
    (repeat true (Nat.min n (Z.to_nat (lim_burst (NewRateLimiter L window)))) ++
     repeat false (n - Z.to_nat (lim_burst (NewRateLimiter L window))))%list.
Proof.
  change (NewRateLimiter L window)
    with (NewLimiter (inject_Z L) (float64_to_int (Duration_Seconds window))).
  set (b := float64_to_int (Duration_Seconds window)). cbn [lim_burst NewLimiter].
  intros HL Ht Hm. exact (fresh_burst_answers L b key t n HL Ht Hm).
Qed.

Lemma X2_witness :
  allow_burst (NewRateLimiter 100 (16777216 * Second + 999999999)) "10.0.0.1" sample_now 3 =
    [true; true; true] /\
  allow_burst (NewRateLimiter 100 (Second / 2)) "10.0.0.1" sample_now 2 = [false; false].
Proof.
  split.
  - rewrite (X2_burst_at_one_instant 100 (16777216 * Second + 999999999) "10.0.0.1" sample_now 3);
      [vm_compute; reflexivity|unfold Second; lia|vm_compute; discriminate..].
  - rewrite (X2_burst_at_one_instant 100 (Second / 2) "10.0.0.1" sample_now 2);
      [vm_compute; reflexivity|unfold Second; lia|vm_compute; discriminate..].
Defined.

(** X3: let [b >= 1] be the burst [int(window.Seconds())] of
    [NewRateLimiter(limit, window)], with [1 <= limit <= 10^9]. However
    many calls the fresh limiter has taken at one instant, [b] seconds or
    more after the zero time (with [b] seconds in the range of a
    [time.Duration]), a call one second or more later is granted. *)
Theorem X3_refill_after_a_second L window key t n t' :
  1 <= L <= Second ->
  1 <= lim_burst (NewRateLimiter L window) ->
  lim_burst (NewRateLimiter L window) * Second <= t ->
  lim_burst (NewRateLimiter L window) * Second <= maxDuration ->
  t + Second <= t' ->
  (Allow (allow_burst_state (NewRateLimiter L window) key t n) key t').1 = true.
Proof.
  change (NewRateLimiter L window)
    with (NewLimiter (inject_Z L) (float64_to_int (Duration_Seconds window))).
  set (b := float64_to_int (Duration_Seconds window)). cbn [lim_burst NewLimiter].
  intros HL Hb Ht Hm Ht'.
  assert (Hst : exists st, allow_burst_state (NewLimiter (inject_Z L) b) key t n = st /\
            lim_limit st = inject_Z L /\ 1 <= lim_burst st /\
            (0 <= lim_tokens st)%Q /\ lim_last st + Second <= t').
  { destruct n as [|n].
    - eexists. split; [reflexivity|]. simpl.
      repeat split; [lia|apply Qle_refl|unfold Second in *; nia].
    - destruct (fresh_burst_state L b key t (S n) HL Hb Ht Hm ltac:(lia))
        as (Hl' & Hb' & Ht'' & Htok').
      eexists. split; [reflexivity|]. rewrite Hl', Hb', Ht'', Htok'.
      repeat split; [lia| |lia].
      assert (Hz : 0 <= b - Z.of_nat (Nat.min (S n) (Z.to_nat b))) by lia.
      revert Hz. generalize (b - Z.of_nat (Nat.min (S n) (Z.to_nat b))). intros z Hz.
      qnorm. lia. }
  destruct Hst as (st & -> & Hl & Hb' & Htok & Hlast).
  rewrite (Allow_grant st key t' L Hl ltac:(lia) Hb'); [reflexivity|].
  exact (advance_refill st t' L Hl ltac:(lia) Hb' Htok Hlast).
Qed.

Lemma X3_witness :
  (Allow (allow_burst_state rateLimiter "10.0.0.1" sample_now 75)
     "10.0.0.1" (sample_now + Second)).1 = true.
Proof.
  apply (X3_refill_after_a_second 100 (60 * Second) "10.0.0.1" sample_now 75
           (sample_now + Second)); [unfold Second; lia|vm_compute; discriminate..|
                                    unfold sample_now, Second; lia].
Defined.

Lemma taskLimiter_fresh : taskLimiter = NewLimiter (inject_Z 1) 86400.
Proof. vm_compute. reflexivity. Qed.

Lemma rateLimiter_fresh : rateLimiter = NewLimiter (inject_Z 100) 60.
Proof. vm_compute. reflexivity. Qed.

(** X4: [taskLimiter], meant as one run a day, never holds [BackgroundTask]
    back: in up to 86400 successive wake-ups, the first a day or more after
    the zero time, every iteration runs the reminder sweep and then sleeps
    until midnight; none takes the one-hour retry. *)
Theorem X4_task_limiter_never_throttles send t1 s1 rest :
  24 * 3600 * Second <= t1 -> Z.of_nat (length ((t1, s1) :: rest)) <= 86400 ->
  BackgroundTask_run send taskLimiter ((t1, s1) :: rest) =
    (fun w => (SendPendingOrderReminders send w.2, SleepUntilNextMidnight)) <$>
      ((t1, s1) :: rest).
Proof.
  intros Ht Hn. rewrite taskLimiter_fresh.
  destruct (fresh_first_grant 1 86400 "background-task" t1 ltac:(lia) ltac:(lia)
              ltac:(unfold Second in *; lia) ltac:(unfold Second, maxDuration; lia))
    as (lim' & Heq & Hl & Hb & Htok & _).
  cbn [BackgroundTask_run]. unfold BackgroundTask_iteration. rewrite Heq.
  cbn [fmap list_fmap]. f_equal.
  apply (BackgroundTask_run_granted send 1 rest lim' (86400 - 1) Hl ltac:(lia)).
  - simpl in Hn. lia.
  - rewrite Htok. apply Qle_refl.
  - rewrite Htok, Hb. qnorm. lia.
Qed.

Lemma X4_witness :
  BackgroundTask_run (fun _ _ => true) taskLimiter
    [(sample_now, sample_store initDB_schema); (sample_now + 3600 * Second, sample_store initDB_schema)] =
    [(SendPendingOrderReminders (fun _ _ => true) (sample_store initDB_schema), SleepUntilNextMidnight);
     (SendPendingOrderReminders (fun _ _ => true) (sample_store initDB_schema), SleepUntilNextMidnight)].
Proof.
  apply (X4_task_limiter_never_throttles (fun _ _ => true) sample_now (sample_store initDB_schema)
           [(sample_now + 3600 * Second, sample_store initDB_schema)]);
    unfold sample_now, Second; simpl; lia.
Defined.

(** ** C2 *)

(** C2 fails on the code: [rateLimiter = NewRateLimiter(100,
    time.Minute)] is one token bucket with a burst of
    [int(time.Minute.Seconds()) = 60] that refills at 100 tokens per
    second and that every key draws on. At any instant a minute or more
    after the zero time, 101 immediate calls under one key get 60 grants,
    not 100; once they have emptied the bucket, the first call under any
    other key at that instant is refused (it does not start with a full
    bucket of its own); and 10 ms later a call is granted again, well
    before a window has passed. *)
Theorem C2_rateLimiter_one_shared_bucket k1 k2 t :
  60 * Second <= t ->
  allow_burst rateLimiter k1 t 101 = (repeat true 60 ++ repeat false 41)%list /\
  (Allow (allow_burst_state rateLimiter k1 t 60) k2 t).1 = false /\
  (Allow (allow_burst_state rateLimiter k1 t 60) k2 (t + Second / 100)).1 = true.
Proof.
  intros Ht. rewrite rateLimiter_fresh.
  assert (Hm : 60 * Second <= maxDuration) by (unfold Second, maxDuration; lia).
  destruct (fresh_burst_state 100 60 k1 t 60 ltac:(unfold Second; lia) ltac:(lia) Ht Hm
              ltac:(lia)) as (Hl & Hb & Hlast & Htok).
  remember (allow_burst_state (NewLimiter (inject_Z 100) 60) k1 t 60) as st eqn:Est.
  assert (Htok0 : (lim_tokens st == 0)%Q) by (rewrite Htok; reflexivity).
  clear Est Htok.
  split; [|split].
  - rewrite (fresh_burst_answers 100 60 k1 t 101 ltac:(unfold Second; lia) Ht Hm).
    reflexivity.
  - assert (Hhi : (lim_tokens st <= inject_Z (lim_burst st))%Q).
    { rewrite Htok0, Hb. qnorm. lia. }
    rewrite (Allow_refuse_empty st k2 t 100 Hl ltac:(unfold Second; lia)); [reflexivity|].
    rewrite (advance_same_instant st t Hlast Hhi). exact Htok0.
  - change (Second / 100) with 10000000.
    rewrite (Allow_grant st k2 (t + 10000000) 100 Hl ltac:(lia) ltac:(rewrite Hb; lia));
      [reflexivity|].
    unfold advance. rewrite Hlast, Hl, Hb.
    rewrite (proj2 (Z.ltb_ge (t + 10000000) t)) by lia.
    assert (He : Time_Sub (t + 10000000) t = 10000000).
    { unfold Time_Sub, maxDuration, minDuration. lia. }
    rewrite He. cbn [snd]. unfold tokensFromDuration.
    destruct (lim_tokens st) as [n d].
    destruct (Qle_bool _ _) eqn:Hc; qnorm; lia.
Qed.

Lemma C2_witness :
  allow_burst rateLimiter "10.0.0.1:5000" sample_now 101 = (repeat true 60 ++ repeat false 41)%list /\
  (Allow (allow_burst_state rateLimiter "10.0.0.1:5000" sample_now 60) "10.0.0.2:6000" sample_now).1 = false /\
  (Allow (allow_burst_state rateLimiter "10.0.0.1:5000" sample_now 60) "10.0.0.2:6000"
     (sample_now + Second / 100)).1 = true.
Proof.
  apply (C2_rateLimiter_one_shared_bucket "10.0.0.1:5000" "10.0.0.2:6000" sample_now).
  unfold sample_now, Second. lia.
Defined.

(** ** The routes of [main] *)

Lemma Allow_refused_unchanged lim key t :
  (Allow lim key t).1 = false -> (Allow lim key t).2 = lim.
Proof.
  unfold Allow, Limiter_Allow.
  destruct (Qeq_bool _ _).
  - by destruct (Z.leb 1 (lim_burst lim)).
  - destruct (advance lim t) as [t' tk].
    by destruct (Z.leb 1 (lim_burst lim) && _).
Qed.

Lemma serve_limited rt body now r srv :
  rt <> GetCustomerOrders ->
  serve rt body now r srv =
    let '(ok, lim') := Allow (srv_limiter srv) (RemoteAddr r) now in
    let srv' := mkServer lim' (srv_world srv) in
    if ok then
      AuthMiddleware (match rt with
                      | PostPlaceOrder => PlaceOrderRoute body now
                      | _ => store_handler AdminOrdersHandler end)
        (match rt with PostPlaceOrder => "customer" | _ => "admin" end) r srv'
    else (srv', mkResponse StatusTooManyRequests (BText "Rate limit exceeded")).
Proof. destruct rt; [reflexivity|done|reflexivity]. Qed.

(** X5: on the two rate-limited routes a request with a wrong token still
    spends a permit of the shared limiter: the limiter is updated as by
    [Allow], the world is unchanged, and the answer is 401 when the permit
    was granted and 429 otherwise. *)
Theorem X5_rate_permit_spent_before_auth rt body now r srv :
  (rt = PostPlaceOrder /\ Header_Get (Req_Header r) "Authorization" <> customerToken) \/
  (rt = GetAdminOrders /\ Header_Get (Req_Header r) "Authorization" <> adminToken) ->
  serve rt body now r srv =
    (mkServer (Allow (srv_limiter srv) (RemoteAddr r) now).2 (srv_world srv),
     if (Allow (srv_limiter srv) (RemoteAddr r) now).1 then unauthorized
     else mkResponse StatusTooManyRequests (BText "Rate limit exceeded")).
Proof.
  intros Hrt. rewrite serve_limited by (destruct Hrt as [[-> _]|[-> _]]; done).
  destruct (Allow (srv_limiter srv) (RemoteAddr r) now) as [[|] lim'] eqn:Ha; [|reflexivity].
  simpl. unfold AuthMiddleware.
  destruct Hrt as [[-> Ht]|[-> Ht]].
  - rewrite bool_decide_true by done. rewrite bool_decide_true by done. reflexivity.
  - rewrite bool_decide_false by done. rewrite bool_decide_true by done.
    try (rewrite bool_decide_true by done); reflexivity.
Qed.

Lemma X5_witness :
  serve GetAdminOrders BodyReadError sample_now (request_with "customer_token" "10.0.0.1")
    sample_server =
    (mkServer (Allow (NewRateLimiter 100 (60 * Second)) "10.0.0.1" sample_now).2
       (mkWorld (sample_store initDB_schema) None), unauthorized).
Proof.
  rewrite (X5_rate_permit_spent_before_auth GetAdminOrders BodyReadError sample_now
             (request_with "customer_token" "10.0.0.1") sample_server).
  - simpl srv_limiter. simpl srv_world. f_equal; vm_compute; reflexivity.
  - right. split; [reflexivity|]. vm_compute. discriminate.
Defined.

(** X6: a request refused by the shared limiter on a rate-limited route
    changes nothing, neither the limiter nor the store nor the report,
    and is answered 429 whatever its token or body. *)
Theorem X6_throttled_request_changes_nothing rt body now r srv :
  rt <> GetCustomerOrders ->
  (Allow (srv_limiter srv) (RemoteAddr r) now).1 = false ->
  serve rt body now r srv =
    (srv, mkResponse StatusTooManyRequests (BText "Rate limit exceeded")).
Proof.
  intros Hrt Hno. rewrite serve_limited by done.
  pose proof (Allow_refused_unchanged _ _ _ Hno) as Hst.
  destruct (Allow (srv_limiter srv) (RemoteAddr r) now) as [ok lim'].
  simpl in Hno, Hst. subst. by destruct srv.
Qed.

Lemma X6_witness :
  serve PostPlaceOrder BodyReadError sample_now (request_with "customer_token" "10.0.0.1")
    (mkServer (allow_burst_state (NewRateLimiter 100 (60 * Second)) "10.0.0.2" sample_now 60)
       (mkWorld (sample_store initDB_schema) None)) =
    (mkServer (allow_burst_state (NewRateLimiter 100 (60 * Second)) "10.0.0.2" sample_now 60)
       (mkWorld (sample_store initDB_schema) None),
     mkResponse StatusTooManyRequests (BText "Rate limit exceeded")).
Proof.
  apply X6_throttled_request_changes_nothing; [discriminate|].
  vm_compute. reflexivity.
Defined.

(** X7: [/customer/orders] is not rate limited: it leaves the limiter,
    the store and the report as they were, and answers 200, 401 or 500,
    never 429. *)
Theorem X7_customer_orders_route_unlimited body now r srv :
  (serve GetCustomerOrders body now r srv).1 = srv /\
  StatusCode (serve GetCustomerOrders body now r srv).2
    ∈ [StatusOK; StatusUnauthorized; StatusInternalServerError].
Proof.
  destruct srv as [lim [s rep]]. simpl. unfold AuthMiddleware.
  rewrite bool_decide_true by done.
  case_bool_decide; [split; [reflexivity|set_solver]|].
  unfold store_handler, CustomerOrdersHandler. simpl.
  destruct (getCustomerOrdersWithProducts s (getCustomerID r)); simpl;
    [destruct (Marshal_orders _)|]; simpl; (split; [reflexivity|set_solver]).
Qed.

(** ** The list reads *)










(** X10: every order [getAllOrdersWithProducts] lists is an [orders] row
    with its id, customer, date and status; it has at least one product,
    and each product entry is a [products] row linked to the order by an
    [order_products] row, with [Quantity] 0 (the query does not read it). *)
Theorem X10_admin_orders_from_tables s l :
  getAllOrdersWithProducts s = Ok l -> forall o, o ∈ l ->
  exists orow, orow ∈ orders s /\ o_id orow = ID o /\ o_customer_id orow = CustomerID o /\
    o_date orow = Date o /\ o_status orow = Status o /\ Products o <> [] /\
    forall pr, pr ∈ Products o -> exists op p,
      op ∈ order_products s /\ p ∈ products s /\
      op_order_id op = ID o /\ op_product_id op = p_id p /\
      pr = mkProduct (p_id p) (p_name p) (scan_price (p_price p))
             (default "" (p_description p)) (default "" (p_image_url p)) 0.
Proof.
  intros Hl o Ho.
  destruct (group_rows_correct ar_scan_ok ar_orderID ar_order ar_product (fun _ => eq_refl) _ _ Hl)
    as (_ & _ & Hrec).
  destruct (Hrec o Ho) as (r & rs & Hf & Heq).
  assert (Hr : r ∈ filter (fun r' => ar_orderID r' = ID o) (all_orders_query s))
    by (rewrite Hf; left).
  apply list_elem_of_filter in Hr as [HrID Hr].
  apply all_orders_query_elem in Hr as (o0 & op0 & p0 & Hj0 & ->).
  apply join3_elem in Hj0 as (Ho0 & _ & _ & _ & _).
  subst o. unfold set_Products in *.
  cbn [ID CustomerID Date Status Products ar_order ar_orderID ar_customerID ar_orderDate
       ar_orderStatus] in *.
  exists o0. repeat split; [done|done|].
  intros pr Hpr. apply list_elem_of_fmap in Hpr as (r' & -> & Hr').
  rewrite <- Hf in Hr'. apply list_elem_of_filter in Hr' as [HrID' Hr'].
  apply all_orders_query_elem in Hr' as (o1 & op1 & p1 & Hj1 & ->).
  apply join3_elem in Hj1 as (_ & Hop1 & Hp1 & Hid1 & Hpid1).
  simpl in HrID'. exists op1, p1. repeat split; try done. congruence.
Qed.

Lemma X10_witness :
  exists l, getAllOrdersWithProducts (sample_store initDB_schema) = Ok l /\ l <> [] /\
    forall o, o ∈ l -> exists orow, orow ∈ orders (sample_store initDB_schema) /\
      o_id orow = ID o /\ o_customer_id orow = CustomerID o /\ Products o <> [].
Proof.
  eexists. split; [vm_compute; reflexivity|]. split; [discriminate|].
  intros o Ho.
  destruct (X10_admin_orders_from_tables (sample_store initDB_schema) _ eq_refl o Ho)
    as (orow & Horow & Hid & Hc & _ & _ & Hp & _).
  eauto.
Defined.

(** ** [getOrderDetails] *)








(** ** [SendPendingOrderReminders] *)

(** X14: a sweep sends a reminder to [e] for order [k] only when the
    [orders] table has a [customer_email] column and a row with id [k],
    status Pending and email [e]: no other order is mailed, and no other
    address is used. *)
Theorem X14_sweep_mails_only_pending send s e k :
  EvSendMail e k ∈ SendPendingOrderReminders send s ->
  has_col "customer_email" (orders_cols (schema s)) = true /\
  exists o, o ∈ orders s /\ o_status o = "Pending" /\ o_id o = k /\ o_customer_email o = Some e.
Proof.
  unfold SendPendingOrderReminders, pending_orders_query.
  destruct (has_col _ _).
  - rewrite list_elem_of_bind.
    intros ([k' em] & Hev & Hrow).
    apply list_elem_of_bind in Hrow as (o & Hrow & Ho).
    case_bool_decide as Hp; [|by apply not_elem_of_nil in Hrow].
    apply list_elem_of_singleton in Hrow. injection Hrow as -> ->.
    destruct (o_customer_email o) as [em|] eqn:Hem.
    + unfold SendEmailReminder in Hev. apply elem_of_cons in Hev as [Hev|Hev].
      * injection Hev as -> ->. split; [done|]. exists o. done.
      * destruct (send em (o_id o)); [by apply not_elem_of_nil in Hev|].
        apply list_elem_of_singleton in Hev. discriminate.
    + apply list_elem_of_singleton in Hev. discriminate.
  - intros Hev. apply list_elem_of_singleton in Hev. discriminate.
Qed.

Lemma X14_witness :
  has_col "customer_email" (orders_cols (schema sample_store_with_emails)) = true /\
  exists o, o ∈ orders sample_store_with_emails /\ o_status o = "Pending" /\ o_id o = 1 /\
    o_customer_email o = Some "ann@example.com".
Proof.
  apply (X14_sweep_mails_only_pending (fun _ _ => false) sample_store_with_emails
           "ann@example.com" 1).
  apply list_elem_of_In. vm_compute. left. reflexivity.
Defined.
